(** * ngcccbase: order-based colouring kernel, transaction composer and UTXO layer

    A shallow embedding of [coloredcoinlib/colordef.py] and [utxodb.py].
    Python integers are [Z], Python strings are [string], Python lists are
    [list] read with stdpp's lookup [l !! i], Python sets are [gset], and
    [None] is the [None] of an [option].  A raised exception is an outcome
    [Raise e] of the computation. *)

From Stdlib Require Import ZArith Lia Ascii.
From stdpp Require Import base decidable option list strings gmap.

Local Open Scope Z_scope.

(** ** Exceptions and outcomes *)

(** The exceptions the modelled code can raise. [Exception msg] is the plain
    [raise Exception(msg)] of the sources; [IndexError], [TypeError] and
    [AttributeError] are raised by the Python runtime itself;
    [IntegrityError] is sqlite3's constraint failure. *)
Inductive exn : Type :=
  | Exception (msg : string)
  | IndexError
  | TypeError
  | AttributeError
  | IntegrityError.

(** The outcome of running a modelled function: a value, an exception, or
    [OutOfFuel] when the bound given to a [while] loop was too small (shown
    below never to happen for the bound [run_kernel] uses). *)
Inductive result (A : Type) : Type :=
  | Ok (a : A)
  | Raise (e : exn)
  | OutOfFuel.
Arguments Ok {A} a.
Arguments Raise {A} e.
Arguments OutOfFuel {A}.

#[global] Instance result_ret : MRet result := fun A a => Ok a.
#[global] Instance result_bind : MBind result := fun A B f m =>
  match m with
  | Ok a => f a
  | Raise e => Raise e
  | OutOfFuel => OutOfFuel
  end.
#[global] Instance result_fmap : FMap result := fun A B f m =>
  match m with
  | Ok a => Ok (f a)
  | Raise e => Raise e
  | OutOfFuel => OutOfFuel
  end.

(** ** The transaction type the kernel consumes *)

Module TxIn.
(** [tx.inputs[i]]: only [.value] is read, after
    [tx.ensure_input_values()] has resolved it. *)
Record t : Type := mk { value : Z }.
End TxIn.

Module TxOut.
Record t : Type := mk { value : Z; script : string }.
End TxOut.

Record Tx : Type := mkTx {
  hash : string;
  inputs : list TxIn.t;
  outputs : list TxOut.t
}.

(** A colorstate: [None], or the pair [(value, label)]. *)
Definition colorstate : Type := option (Z * string).

(** [self.genesis], the dict built by [from_color_desc]. *)
Record Genesis : Type := mkGenesis {
  txhash : string;
  outindex : Z;
  height : Z
}.

(** [OBColorDefinition]: [self.color_id] and [self.genesis];
    [self.starting_height] is [genesis['height']]. *)
Record OBColorDefinition : Type := mkOBC {
  color_id : Z;
  genesis : Genesis
}.

Definition starting_height (self : OBColorDefinition) : Z :=
  height (genesis self).

(** [OBColorDefinition.is_special_tx] *)
Definition is_special_tx (self : OBColorDefinition) (tx : Tx) : bool :=
  String.eqb (hash tx) (txhash (genesis self)).

(** [ColorDefinition.run_kernel], the base class: one [None] per output. *)
Definition base_run_kernel (tx : Tx) (in_colorstates : list colorstate)
  : list colorstate :=
  map (fun _ => None) (outputs tx).

(** ** [OBColorDefinition.run_kernel] *)

(** The three local variables the loops of [run_kernel] update. *)
Record kstate : Type := mkK {
  inp_index : nat;
  cur_value : Z;
  colored : bool
}.

Definition init_kstate : kstate :=
  {| inp_index := 0; cur_value := 0; colored := false |}.

(** [in_colorstates[inp_index] != None]; indexing past the end raises. *)
Definition in_colorstate_present (in_colorstates : list colorstate)
    (i : nat) : result bool :=
  match in_colorstates !! i with
  | Some cs => Ok (bool_decide (cs ≠ None))
  | None => Raise IndexError
  end.

(** The inner loop
<<
    while cur_value < o.value:
        cur_value += tx.inputs[inp_index].value
        if colored:
            colored = (in_colorstates[inp_index] != None)
        inp_index += 1
>>
    [fuel] bounds the number of iterations. *)
Fixpoint while_loop (fuel : nat) (tx : Tx) (in_colorstates : list colorstate)
    (o_value : Z) (st : kstate) : result kstate :=
  if cur_value st <? o_value then
    match fuel with
    | O => OutOfFuel
    | S fuel' =>
        match inputs tx !! inp_index st with
        | None => Raise IndexError
        | Some i =>
            let cur := cur_value st + TxIn.value i in
            c ← (if colored st
                 then in_colorstate_present in_colorstates (inp_index st)
                 else Ok false);
            while_loop fuel' tx in_colorstates o_value
              {| inp_index := S (inp_index st);
                 cur_value := cur;
                 colored := c |}
        end
    end
  else Ok st.

(** Every iteration reads a fresh input, so one more than the number of
    inputs always suffices. *)
Definition while_fuel (tx : Tx) : nat := S (length (inputs tx)).

(** [if cur_value == 0: colored = True # reset] *)
Definition reset (st : kstate) : kstate :=
  if cur_value st =? 0
  then {| inp_index := inp_index st; cur_value := cur_value st;
          colored := true |}
  else st.

(** [if is_genesis and (out_index == self.genesis['outindex']): colored = True] *)
Definition genesis_override (self : OBColorDefinition) (is_genesis : bool)
    (out_index : nat) (st : kstate) : kstate :=
  if is_genesis && (Z.of_nat out_index =? outindex (genesis self))
  then {| inp_index := inp_index st; cur_value := cur_value st;
          colored := true |}
  else st.

(** The colorstate appended for output [o] once [colored] is settled. *)
Definition out_colorstate (o : TxOut.t) (st : kstate) : colorstate :=
  if colored st then Some (TxOut.value o, "") else None.

(** The body of the [for out_index in xrange(len(tx.outputs))] loop: the
    colorstate appended for output [o] and the updated locals. *)
Definition kernel_step (self : OBColorDefinition) (tx : Tx)
    (in_colorstates : list colorstate) (is_genesis : bool)
    (out_index : nat) (o : TxOut.t) (st : kstate)
  : result (colorstate * kstate) :=
  st1 ← while_loop (while_fuel tx) tx in_colorstates (TxOut.value o) (reset st);
  let st2 := genesis_override self is_genesis out_index st1 in
  Ok (out_colorstate o st2, st2).

(** The [for] loop over the outputs still to be processed, [outs] being
    [tx.outputs[out_index:]]. *)
Fixpoint for_outputs (self : OBColorDefinition) (tx : Tx)
    (in_colorstates : list colorstate) (is_genesis : bool)
    (outs : list TxOut.t) (out_index : nat) (st : kstate)
    (out_colorstates : list colorstate)
  : result (list colorstate * kstate) :=
  match outs with
  | [] => Ok (out_colorstates, st)
  | o :: outs' =>
      r ← kernel_step self tx in_colorstates is_genesis out_index o st;
      for_outputs self tx in_colorstates is_genesis outs' (S out_index)
        r.2 (out_colorstates ++ [r.1])
  end.

(** [run_kernel] together with the final values of its locals. *)
Definition run_kernel_state (self : OBColorDefinition) (tx : Tx)
    (in_colorstates : list colorstate)
  : result (list colorstate * kstate) :=
  let is_genesis := String.eqb (hash tx) (txhash (genesis self)) in
  for_outputs self tx in_colorstates is_genesis (outputs tx) 0%nat
    init_kstate [].

Definition run_kernel (self : OBColorDefinition) (tx : Tx)
    (in_colorstates : list colorstate) : result (list colorstate) :=
  fst <$> run_kernel_state self tx in_colorstates.

(** *** The cursor of the walk

    What [run_kernel] does to [inp_index] and [cur_value] alone: the same
    two loops with the [colored] flag, [in_colorstates] and the genesis test
    left out. It is used to say when the walk runs past the end of
    [tx.inputs], independently of any colouring. *)

Definition cursor (st : kstate) : nat * Z := (inp_index st, cur_value st).

Fixpoint walk_while (fuel : nat) (tx : Tx) (o_value : Z) (c : nat * Z)
  : result (nat * Z) :=
  if c.2 <? o_value then
    match fuel with
    | O => OutOfFuel
    | S fuel' =>
        match inputs tx !! c.1 with
        | None => Raise IndexError
        | Some i => walk_while fuel' tx o_value (S c.1, c.2 + TxIn.value i)
        end
    end
  else Ok c.

Fixpoint walk_for (tx : Tx) (outs : list TxOut.t) (c : nat * Z)
  : result (nat * Z) :=
  match outs with
  | [] => Ok c
  | o :: outs' =>
      c' ← walk_while (while_fuel tx) tx (TxOut.value o) c;
      walk_for tx outs' c'
  end.

Definition walk (tx : Tx) : result (nat * Z) :=
  walk_for tx (outputs tx) (0%nat, 0).

(** *** Totals used to state conservation *)

Definition colorstate_value (cs : colorstate) : Z :=
  match cs with Some (v, _) => v | None => 0 end.

(** Sum of the values of the colorstates marked present in a result. *)
Definition colored_output_total (out_colorstates : list colorstate) : Z :=
  foldr (fun cs acc => colorstate_value cs + acc) 0 out_colorstates.

(** Sum of the values of the first [n] inputs (the ones a run with final
    [inp_index = n] consumed) whose [in_colorstates] entry is present. *)
Definition colored_input_total (tx : Tx) (in_colorstates : list colorstate)
    (n : nat) : Z :=
  foldr (fun k acc =>
           match inputs tx !! k, in_colorstates !! k with
           | Some i, Some (Some _) => TxIn.value i + acc
           | _, _ => acc
           end) 0 (seq 0 n).

Definition input_total (tx : Tx) : Z :=
  foldr (fun i acc => TxIn.value i + acc) 0 (inputs tx).

Definition output_total (tx : Tx) : Z :=
  foldr (fun o acc => TxOut.value o + acc) 0 (outputs tx).

(** ** [OBColorDefinition.compose_tx_spec] *)

(** The Python values a spend target is made of: integers and strings. *)
Inductive pyval : Type :=
  | PInt (n : Z)
  | PStr (s : string).

(** A spend target is a 3-tuple, read as [target[0]], [target[1]],
    [target[2]]. *)
Definition target : Type := pyval * pyval * pyval.
Definition item0 (t : target) : pyval := t.1.1.
Definition item1 (t : target) : pyval := t.1.2.
Definition item2 (t : target) : pyval := t.2.

(** [v == n] for an integer [n]: a string never equals an integer. *)
Definition py_eq_int (v : pyval) (n : Z) : bool :=
  match v with
  | PInt m => m =? n
  | PStr _ => false
  end.

(** The built-in [sum(l)]: starts from the integer [0] and adds from the
    left; [int + str] raises [TypeError]. *)
Fixpoint py_sum_from (acc : Z) (l : list pyval) : result Z :=
  match l with
  | [] => Ok acc
  | PInt n :: l' => py_sum_from (acc + n) l'
  | PStr _ :: _ => Raise TypeError
  end.

Definition py_sum (l : list pyval) : result Z := py_sum_from 0 l.

(** [v.target]: neither [int] nor [str] has an attribute of that name. *)
Definition py_getattr_target (v : pyval) : result pyval :=
  match v with
  | PInt _ => Raise AttributeError
  | PStr _ => Raise AttributeError
  end.

(** [v[0]] *)
Definition py_getitem0 (v : pyval) : result pyval :=
  match v with
  | PInt _ => Raise TypeError
  | PStr EmptyString => Raise IndexError
  | PStr (String c _) => Ok (PStr (String c EmptyString))
  end.

(** [txspec.ComposedTxSpec] and its [TxIn]/[TxOut], which are plain
    containers for what the composer hands them. *)
Module ComposedTxSpec.
Record TxIn (coin : Type) : Type := mkTxIn { utxo : coin }.
Record TxOut : Type := mkTxOut { arg : pyval }.
Record t (coin : Type) : Type := mk {
  txins : list (TxIn coin);
  txouts : list TxOut
}.
Arguments mkTxIn {coin} utxo.
Arguments utxo {coin} _.
Arguments mk {coin} txins txouts.
Arguments txins {coin} _.
Arguments txouts {coin} _.
End ComposedTxSpec.

(** The calls [compose_tx_spec] makes on [op_tx_spec], in order. *)
Inductive call : Type :=
  | CallGetTargets
  | CallSelectCoins (color_id : Z) (needed : Z)
  | CallGetRequiredFee (base : Z)
  | CallGetChangeAddr (color_id : Z).

(** [op_tx_spec]: an object with state [W] (the wallet's coin-selection
    state) whose four methods may change that state and may raise. *)
Record OperationalTxSpec (W coin : Type) : Type := mkOps {
  get_targets : W -> result (list target) * W;
  select_coins : Z -> Z -> W -> result (list coin * Z) * W;
  get_required_fee : Z -> W -> result Z * W;
  get_change_addr : Z -> W -> result string * W
}.
Arguments get_targets {W coin} _ _.
Arguments select_coins {W coin} _ _ _ _.
Arguments get_required_fee {W coin} _ _ _.
Arguments get_change_addr {W coin} _ _ _.

(** Computations over [op_tx_spec]: the state of the object and the log of
    the calls made so far are threaded through, also when an exception is
    raised. *)
Definition M (W A : Type) : Type := W * list call -> result A * (W * list call).

Definition m_ret {W A} (a : A) : M W A := fun s => (Ok a, s).

Definition m_bind {W A B} (m : M W A) (k : A -> M W B) : M W B :=
  fun s =>
    match m s with
    | (Ok a, s') => k a s'
    | (Raise e, s') => (Raise e, s')
    | (OutOfFuel, s') => (OutOfFuel, s')
    end.

(** A computation that touches neither the state nor the log. *)
Definition m_lift {W A} (r : result A) : M W A := fun s => (r, s).

(** A method call: logged, then run on the state of the object. *)
Definition m_call {W A} (c : call) (f : W -> result A * W) : M W A :=
  fun s => let '(r, w) := f s.1 in (r, (w, s.2 ++ [c])).

Declare Scope m_scope.
Delimit Scope m_scope with M.
Notation "'do' x <- m ; k" := (m_bind m (fun x => k))
  (at level 10, x name, m at level 100, k at level 200) : m_scope.
Notation "'do' ' p <- m ; k" := (m_bind m (fun x => match x with p => k end))
  (at level 10, p pattern, m at level 100, k at level 200) : m_scope.

Section Composer.
Context {W coin : Type}.
Variable op_tx_spec : OperationalTxSpec W coin.
Variable self : OBColorDefinition.

Local Open Scope m_scope.

(** The partition loop
<<
  for target in op_tx_spec.get_targets():
      color_id = target[1]
      if color_id == self.color_id:   colored_targets.append(target)
      elif color_id == 0:             uncolored_targets.append(target)
      else: raise Exception('ColorDef cannot work with this color_id')
>>  *)
Fixpoint partition_targets (targets : list target)
    (colored_targets uncolored_targets : list target)
  : result (list target * list target) :=
  match targets with
  | [] => Ok (colored_targets, uncolored_targets)
  | target :: targets' =>
      let color_id' := item1 target in
      if py_eq_int color_id' (color_id self) then
        partition_targets targets' (colored_targets ++ [target])
          uncolored_targets
      else if py_eq_int color_id' 0 then
        partition_targets targets' colored_targets
          (uncolored_targets ++ [target])
      else Raise (Exception "ColorDef cannot work with this color_id")
  end.

(** [txspec.ComposedTxSpec.TxOut(target[2]. target[0])]: the argument is
    the attribute [target] of [target[2]], indexed at [0]. *)
Definition make_txout (t : target) : result ComposedTxSpec.TxOut :=
  a ← py_getattr_target (item2 t);
  b ← py_getitem0 a;
  Ok (ComposedTxSpec.mkTxOut b).

(** A list comprehension whose element expression may raise. *)
Fixpoint comprehension {A B} (f : A -> result B) (l : list A)
  : result (list B) :=
  match l with
  | [] => Ok []
  | x :: l' => y ← f x; ys ← comprehension f l'; Ok (y :: ys)
  end.

(** [colored_targets.append((change, color_id, get_change_addr(color_id)))]
    when [change > 0]. *)
Definition append_change (change : Z) (change_color : Z)
    (targets : list target) : M W (list target) :=
  if change >? 0 then
    do addr <- m_call (CallGetChangeAddr change_color)
                 (get_change_addr op_tx_spec change_color);
    m_ret (targets ++ [(PInt change, PInt change_color, PStr addr)])
  else m_ret targets.

Definition compose_tx_spec : M W (ComposedTxSpec.t coin) :=
  do targets <- m_call CallGetTargets (get_targets op_tx_spec);
  do ' (colored_targets, uncolored_targets) <-
       m_lift (partition_targets targets [] []);
  do colored_needed <- m_lift (py_sum (map item2 colored_targets));
  do uncolored_needed <- m_lift (py_sum (map item2 uncolored_targets));
  do ' (colored_inputs, colored_total) <-
       m_call (CallSelectCoins (color_id self) colored_needed)
         (select_coins op_tx_spec (color_id self) colored_needed);
  do fee <- m_call (CallGetRequiredFee 750)
              (get_required_fee op_tx_spec 750);
  do ' (uncolored_inputs, uncolored_total) <-
       m_call (CallSelectCoins (color_id self) (uncolored_needed + fee))
         (select_coins op_tx_spec (color_id self) (uncolored_needed + fee));
  let colored_change := colored_total - colored_needed in
  do colored_targets <-
       append_change colored_change (color_id self) colored_targets;
  let uncolored_change := uncolored_total - uncolored_needed - fee in
  do uncolored_targets <-
       append_change uncolored_change 0 uncolored_targets;
  let txins := map ComposedTxSpec.mkTxIn
                 (colored_inputs ++ uncolored_inputs) in
  do txouts <- m_lift (comprehension make_txout
                         (colored_targets ++ uncolored_targets));
  m_ret (ComposedTxSpec.mk txins txouts).
End Composer.

(** Running the composer from a state of [op_tx_spec] with an empty log. *)
Definition run_compose {W coin} (op_tx_spec : OperationalTxSpec W coin)
    (self : OBColorDefinition) (w : W)
  : result (ComposedTxSpec.t coin) * (W * list call) :=
  compose_tx_spec op_tx_spec self (w, []).

Definition is_select_coins (c : call) : bool :=
  match c with CallSelectCoins _ _ => true | _ => false end.

(** A target neither bucket takes: its color id is neither
    [self.color_id] nor [0]. *)
Definition unsupported (self : OBColorDefinition) (t : target) : bool :=
  negb (py_eq_int (item1 t) (color_id self))
  && negb (py_eq_int (item1 t) 0).

(** A logged call that, if it is a coin selection, was made with
    [self.color_id]. *)
Definition selects_with (self : OBColorDefinition) (c : call) : Prop :=
  match c with
  | CallSelectCoins cid _ => cid = color_id self
  | _ => True
  end.

(** [m] keeps the property [P] of the call log, however it ends. *)
Definition keeps_log {W A} (P : list call -> Prop) (m : M W A) : Prop :=
  forall s, P s.2 -> P (m s).2.2.

(** Whatever [m] returns satisfies [Q]. *)
Definition returns {W A} (Q : A -> Prop) (m : M W A) : Prop :=
  forall s a s', m s = (Ok a, s') -> Q a.

(** ** [utxodb.UTXOStore] *)

(** A row of the table [utxo_data]. *)
Module UtxoRow.
Record t : Type := mk {
  id : Z;
  address : string;
  txhash : string;
  outindex : Z;
  value : Z;
  script : string;
  scantime : Z;
  commitment : Z
}.
End UtxoRow.

(** The table [utxo_data] in insertion order, with the counter behind
    [id INTEGER PRIMARY KEY AUTOINCREMENT]. *)
Record UTXOStore : Type := mkStore {
  rows : list UtxoRow.t;
  last_id : Z
}.

(** The store right after [__init__] created the table and its indexes. *)
Definition empty_store : UTXOStore := {| rows := []; last_id := 0 |}.

(** Whether some row has the outpoint [(txhash, outindex)]: the key of
    [CREATE UNIQUE INDEX utxo_data_outpoint ON utxo_data (txhash, outindex)]. *)
Definition has_outpoint (db : UTXOStore) (txhash : string) (outindex : Z)
  : bool :=
  existsb (fun r => String.eqb (UtxoRow.txhash r) txhash
                    && (UtxoRow.outindex r =? outindex)) (rows db).

(** Modelled from the spec: [DataStore.execute] of [coloredcoinlib.store] and
    the storage engine behind it are not among the sources. The spec gives
    the table as "unique on (txhash, outindex)" and [add] as "insert;
    violates uniqueness if the outpoint already exists - fatal constraint
    error, not silently ignored". This is the [INSERT INTO utxo_data]
    statement of [add_utxo] under the unique index [__init__] creates: a row
    with an existing outpoint is refused with [IntegrityError] and the table
    is left as it was; otherwise the row is appended under the next id. *)
Definition execute_insert (address txhash : string) (outindex value : Z)
    (script : string) (scantime commitment : Z) (db : UTXOStore)
  : result unit * UTXOStore :=
  if has_outpoint db txhash outindex then (Raise IntegrityError, db)
  else
    let id := last_id db + 1 in
    (Ok tt,
     {| rows := rows db ++ [UtxoRow.mk id address txhash outindex value script
                              scantime commitment];
        last_id := id |}).

(** [UTXOStore.add_utxo]; [now] is what [int(time())] returns.
    [if not scantime] holds for [None] and for [0]. *)
Definition add_utxo (now : Z) (address txhash : string) (outindex value : Z)
    (script : string) (scantime : option Z) (commitment : Z) (db : UTXOStore)
  : result unit * UTXOStore :=
  let scantime :=
    match scantime with
    | None => now
    | Some t => if t =? 0 then now else t
    end in
  execute_insert address txhash outindex value script scantime commitment db.

(** [UTXOStore.del_utxo]: [DELETE ... WHERE txhash = ? AND outindex = ?] *)
Definition del_utxo (txhash : string) (outindex : Z) (db : UTXOStore)
  : UTXOStore :=
  {| rows := List.filter
               (fun r => negb (String.eqb (UtxoRow.txhash r) txhash
                               && (UtxoRow.outindex r =? outindex))) (rows db);
     last_id := last_id db |}.

(** [UTXOStore.delete_all] *)
Definition delete_all (db : UTXOStore) : UTXOStore :=
  {| rows := []; last_id := last_id db |}.


(** [UTXOStore.get_utxos_for_address] *)
Definition store_get_utxos_for_address (db : UTXOStore) (address : string)
  : list UtxoRow.t :=
  List.filter (fun r => String.eqb (UtxoRow.address r) address) (rows db).


(** ** [utxodb.UTXO], [UTXOManager] and [UTXOQuery] *)

(** A colorvalue [cv]: [cv[0]] is the color id, [cv[1]] the value. *)
Definition colorvalue : Type := Z * Z.

(** An address record: [get_address()] and
    [get_color_set().color_id_set]. *)
Record AddressRec : Type := mkAddressRec {
  get_address : string;
  get_color_set : gset Z
}.

Module UTXO.
Record t : Type := mk {
  txhash : string;
  outindex : Z;
  value : Z;
  script : string;
  address_rec : option AddressRec;
  colorvalues : option (list colorvalue);
  utxo_rec : option UtxoRow.t
}.

(** [UTXO.__init__] *)
Definition init (txhash : string) (outindex value : Z) (script : string)
  : t :=
  mk txhash outindex value script None None None.

(** [UTXO.get_outpoint] *)
Definition get_outpoint (u : t) : string * Z := (txhash u, outindex u).
End UTXO.

(** [UTXOManager.get_utxos_for_address]: a fresh [UTXO] per store row. *)
Definition manager_get_utxos_for_address (store : UTXOStore)
    (address : string) : list UTXO.t :=
  map (fun utxo_rec =>
         let utxo := UTXO.init (UtxoRow.txhash utxo_rec) (UtxoRow.outindex utxo_rec)
                       (UtxoRow.value utxo_rec) (UtxoRow.script utxo_rec) in
         UTXO.mk (UTXO.txhash utxo) (UTXO.outindex utxo) (UTXO.value utxo)
           (UTXO.script utxo) (UTXO.address_rec utxo) (UTXO.colorvalues utxo)
           (Some utxo_rec))
      (store_get_utxos_for_address store address).

(** [ColorSet.has_color_id] of the query's color set, a set of color ids. *)
Definition has_color_id (color_set : gset Z) (c : Z) : bool :=
  bool_decide (c ∈ color_set).

(** What a [UTXOQuery] holds: [self.color_set], the store behind
    [self.utxo_manager], and [self.model.ccc.colordata.get_colorvalues]. *)
Record UTXOQuery : Type := mkQuery {
  color_set : gset Z;
  utxo_manager : UTXOStore;
  get_colorvalues : gset Z -> string -> Z -> list colorvalue
}.

(** The local function [relevant] of [get_utxos_for_address]:
<<
    cvl = utxo.colorvalues
    if not cvl:
        return color_set.has_color_id(0)
    for cv in cvl:
        if color_set.has_color_id(cv[0]):
            return True
        return False
>>
    Both branches of the loop body return, so the loop never reaches a
    second colorvalue. *)
Definition relevant (color_set : gset Z) (utxo : UTXO.t) : bool :=
  match UTXO.colorvalues utxo with
  | None | Some [] => has_color_id color_set 0
  | Some (cv :: _) =>
      if has_color_id color_set cv.1 then true else false
  end.

(** [UTXOQuery.get_utxos_for_address] *)
Definition get_utxos_for_address (self : UTXOQuery) (address_rec : AddressRec)
  : list UTXO.t :=
  let addr_color_set := get_color_set address_rec in
  let all_utxos :=
    manager_get_utxos_for_address (utxo_manager self)
      (get_address address_rec) in
  let address_is_uncolored := bool_decide (addr_color_set = {[ 0 ]}) in
  let all_utxos :=
    map (fun utxo =>
           UTXO.mk (UTXO.txhash utxo) (UTXO.outindex utxo) (UTXO.value utxo)
             (UTXO.script utxo) (Some address_rec)
             (if negb address_is_uncolored
              then Some (get_colorvalues self addr_color_set
                           (UTXO.txhash utxo) (UTXO.outindex utxo))
              else UTXO.colorvalues utxo)
             (UTXO.utxo_rec utxo)) all_utxos in
  if address_is_uncolored then all_utxos
  else List.filter (relevant (color_set self)) all_utxos.

(** What the filter is described to keep: a colorvalue of a requested
    color, or no colorvalue at all while [0] is requested. *)
Definition keeps_described (color_set : gset Z) (cvl : list colorvalue)
  : bool :=
  existsb (fun cv => has_color_id color_set cv.1) cvl
  || (bool_decide (cvl = []) && has_color_id color_set 0).

(** ** Concrete inputs used by the examples *)

(** A colour with id 7 whose genesis is output 1 of transaction ["gen"]. *)
Definition demo_def : OBColorDefinition :=
  {| color_id := 7;
     genesis := {| txhash := "gen"; outindex := 1; height := 10 |} |}.

(** A transaction given by its hash and the values of its inputs and
    outputs. *)
Definition demo_tx (h : string) (ins outs : list Z) : Tx :=
  {| hash := h;
     inputs := map TxIn.mk ins;
     outputs := map (fun v => TxOut.mk v "") outs |}.

(** Inputs of value 100 and 100, outputs of value 100 and 100. *)
Definition even_tx : Tx := demo_tx "aa" [100; 100] [100; 100].

(** One input of value 100, outputs of value 100 and 100. *)
Definition short_tx : Tx := demo_tx "aa" [100] [100; 100].

(** An [op_tx_spec] with fixed targets whose state counts the calls to
    [select_coins]; a selection returns one coin worth [needed + extra]. *)
Definition demo_ops (targets : list target) (extra : Z)
  : OperationalTxSpec nat (string * Z) :=
  {| get_targets w := (Ok targets, w);
     select_coins cid needed w :=
       (Ok ([("coin"%string, needed + extra)], needed + extra), S w);
     get_required_fee base w := (Ok base, w);
     get_change_addr cid w := (Ok "change"%string, w) |}.

(** A store holding the single outpoint [("tx1", 0)] at address ["addr1"]. *)
Definition demo_store : UTXOStore :=
  (add_utxo 99 "addr1" "tx1" 0 500 "scr" None 0 empty_store).2.

(** A query for colour 2 over [demo_store] where every output carries the
    colorvalues [(1, 10)] and [(2, 20)], in that order. *)
Definition demo_query : UTXOQuery :=
  {| color_set := {[ 2 ]};
     utxo_manager := demo_store;
     get_colorvalues := fun _ _ _ => [(1, 10); (2, 20)] |}.

(** An address that declares the colours 1 and 2. *)
Definition demo_address : AddressRec :=
  {| get_address := "addr1"; get_color_set := {[ 1; 2 ]} |}.

(** ** Further definitions: the rest of [colordef.py] and [utxodb.py] *)

(** Total value of the first [n] inputs, the ones consumed when
    [inp_index] is [n]. *)
Definition consumed_total (tx : Tx) (n : nat) : Z :=
  foldr (fun i acc => TxIn.value i + acc) 0 (take n (inputs tx)).

(** The two colour tests of the partition loop of [compose_tx_spec]:
    [color_id == self.color_id], and the [elif color_id == 0] reached when
    the first fails. *)
Definition own_target (self : OBColorDefinition) (t : target) : bool :=
  py_eq_int (item1 t) (color_id self).

Definition zero_target (self : OBColorDefinition) (t : target) : bool :=
  negb (own_target self t) && py_eq_int (item1 t) 0.

(** The invariant of the walk: [cur_value] is the total value of the
    inputs before [inp_index], which is within the list. *)
Definition walked (tx : Tx) (st : kstate) : Prop :=
  cur_value st = consumed_total tx (inp_index st)
  /\ (inp_index st <= length (inputs tx))%nat.

(** *** Colour descriptors *)

(** Exceptions of the descriptor code: [ValueError] (tuple unpacking,
    [int]), [KeyError] (a missing dict key), or one of [exn]. *)
Inductive desc_exn : Type :=
  | ValueError
  | KeyError (key : string)
  | Other (e : exn).

(** [s.split(':')]: the pieces between the colons, at least one. *)
Fixpoint split_colon (s : string) : list string :=
  match s with
  | EmptyString => [EmptyString]
  | String c s' =>
      if Ascii.eqb c ":"%char then EmptyString :: split_colon s'
      else match split_colon s' with
           | piece :: pieces => String c piece :: pieces
           | [] => [String c EmptyString]
           end
  end.

(** No colon occurs in [s]. *)
Fixpoint colon_free (s : string) : bool :=
  match s with
  | EmptyString => true
  | String c s' => negb (Ascii.eqb c ":"%char) && colon_free s'
  end.

(** Number of colons in [s]. *)
Fixpoint count_colons (s : string) : nat :=
  match s with
  | EmptyString => O
  | String c s' =>
      ((if Ascii.eqb c ":"%char then 1 else 0) + count_colons s')%nat
  end.

(** [':'.join(pieces)] *)
Fixpoint join_colon (pieces : list string) : string :=
  match pieces with
  | [] => EmptyString
  | [piece] => piece
  | piece :: pieces' => (piece ++ String ":"%char (join_colon pieces'))%string
  end.

(** [get_color_desc_code]: [color_desc.split(':')[0]] *)
Definition get_color_desc_code (color_desc : string) : desc_exn + string :=
  match split_colon color_desc with
  | code :: _ => inr code
  | [] => inl (Other IndexError)
  end.

(** [OBColorDefinition.class_code] *)
Definition class_code : string := "obc".

(** The classes that can be registered: the file defines one concrete
    colour definition class. *)
Inductive cd_class : Type := OBColorDefinitionClass.

(** [ColorDefinition.register_color_def_class]:
    [cd_classes[code] = clAss] *)
Definition register_color_def_class (code : string) (clAss : cd_class)
    (cd_classes : gmap string cd_class) : gmap string cd_class :=
  <[code := clAss]> cd_classes.

(** [ColorDefinition.cd_classes] once the module is loaded: the empty
    dict, then the registration on the last line of the file. *)
Definition cd_classes : gmap string cd_class :=
  register_color_def_class class_code OBColorDefinitionClass ∅.

Section Descriptor.
(** The built-in [int] on a string: [None] stands for its [ValueError]. *)
Variable py_int : string -> option Z.

(** [OBColorDefinition.from_color_desc]
<<
    code, txhash, outindex, height = color_desc.split(':')
    if (code != cdc.class_code):
        raise Exception('wrong color code in from_color_desc')
    genesis = {'txhash': txhash, 'height': int(height),
               'outindex': int(outindex)}
    return cdc(color_id, genesis)
>>  *)
Definition ob_from_color_desc (color_id : Z) (color_desc : string)
  : desc_exn + OBColorDefinition :=
  match split_colon color_desc with
  | [code; txhash; outindex; height] =>
      if negb (String.eqb code class_code)
      then inl (Other (Exception "wrong color code in from_color_desc"))
      else
        match py_int height with
        | None => inl ValueError
        | Some height' =>
            match py_int outindex with
            | None => inl ValueError
            | Some outindex' =>
                inr {| color_id := color_id;
                       genesis := {| txhash := txhash;
                                     outindex := outindex';
                                     height := height' |} |}
            end
        end
  | _ => inl ValueError
  end.

(** [cdclass.from_color_desc] for a registered class. *)
Definition class_from_color_desc (cdclass : cd_class)
  : Z -> string -> desc_exn + OBColorDefinition :=
  match cdclass with
  | OBColorDefinitionClass => ob_from_color_desc
  end.

(** [ColorDefinition.from_color_desc]
<<
    code = get_color_desc_code(color_desc)
    cdclass = cdc.cd_classes[code]
    return cdclass.from_color_desc(color_id, color_desc)
>>  *)
Definition from_color_desc (registry : gmap string cd_class) (color_id : Z)
    (color_desc : string) : desc_exn + OBColorDefinition :=
  match get_color_desc_code color_desc with
  | inl e => inl e
  | inr code =>
      match registry !! code with
      | None => inl (KeyError code)
      | Some cdclass => class_from_color_desc cdclass color_id color_desc
      end
  end.
End Descriptor.

(** *** [UTXOFetcher.get_for_address] and [UTXOManager]'s updates *)

(** What [interface.get_utxo] yields per output: the arguments
    [(txhash, outindex, value, script)] of [UTXO(...)]. *)
Definition utxo_data : Type := string * Z * Z * string.

(** The [UTXO] object built from one fetched tuple. *)
Definition utxo_of (d : utxo_data) : UTXO.t :=
  UTXO.init d.1.1.1 d.1.1.2 d.1.2 d.2.

(** [UTXOFetcher.get_for_address]; [get_utxo] is [self.interface.get_utxo],
    which returns the data or raises. *)
Definition get_for_address (get_utxo : string -> exn + list utxo_data)
    (address : string) : exn + list UTXO.t :=
  match get_utxo address with
  | inl e => inl e
  | inr data => inr (map utxo_of data)
  end.

(** What the updates act on: the store, the number of calls of [time()] made
    so far, and what was printed. *)
Record SyncState : Type := mkSync {
  sync_store : UTXOStore;
  clock : nat;
  printed : list exn
}.

(** The loop of [update_address]
<<
    for utxo in utxo_list:
        self.store.add_utxo(address, utxo.txhash, utxo.outindex,
                            utxo.value, utxo.script)
>>
    inside its [try]: the first exception ends the loop and is printed by
    the handler. [time k] is what the [k]-th call of [time()] returns. *)
Fixpoint add_fetched (time : nat -> Z) (address : string)
    (utxo_list : list UTXO.t) (s : SyncState) : SyncState :=
  match utxo_list with
  | [] => s
  | utxo :: utxo_list' =>
      match add_utxo (time (clock s)) address (UTXO.txhash utxo)
              (UTXO.outindex utxo) (UTXO.value utxo) (UTXO.script utxo)
              None 0 (sync_store s) with
      | (Ok _, db) =>
          add_fetched time address utxo_list'
            {| sync_store := db; clock := S (clock s);
               printed := printed s |}
      | (Raise e, db) =>
          {| sync_store := db; clock := S (clock s);
             printed := printed s ++ [e] |}
      | (OutOfFuel, db) =>
          {| sync_store := db; clock := S (clock s);
             printed := printed s |}
      end
  end.

(** [UTXOManager.update_address]: everything happens inside
    [try: ... except Exception as e: print e]. *)
Definition update_address (get_utxo : string -> exn + list utxo_data)
    (time : nat -> Z) (address_rec : AddressRec) (s : SyncState)
  : SyncState :=
  let address := get_address address_rec in
  match get_for_address get_utxo address with
  | inl e =>
      {| sync_store := sync_store s; clock := clock s;
         printed := printed s ++ [e] |}
  | inr utxo_list => add_fetched time address utxo_list s
  end.

(** [UTXOManager.update_all]; [all_addresses] is
    [wam.get_all_addresses()]. *)
Definition update_all (get_utxo : string -> exn + list utxo_data)
    (time : nat -> Z) (all_addresses : list AddressRec) (s : SyncState)
  : SyncState :=
  foldl (fun s' address => update_address get_utxo time address s')
    {| sync_store := delete_all (sync_store s); clock := clock s;
       printed := printed s |}
    all_addresses.

(** The outpoint of a fetched output. *)
Definition data_outpoint (d : utxo_data) : string * Z := (d.1.1.1, d.1.1.2).

(** A store row holds the fetched output [d] under [address]. *)
Definition row_of_data (address : string) (d : utxo_data) (r : UtxoRow.t)
  : Prop :=
  UtxoRow.address r = address /\ UtxoRow.txhash r = d.1.1.1
  /\ UtxoRow.outindex r = d.1.1.2 /\ UtxoRow.value r = d.1.2
  /\ UtxoRow.script r = d.2 /\ UtxoRow.commitment r = 0.

(** The outpoints of the rows of a store, in row order. *)
Definition outpoints (db : UTXOStore) : list (string * Z) :=
  map (fun r => (UtxoRow.txhash r, UtxoRow.outindex r)) (rows db).

(** [UTXOQuery.get_result]; [addresses] is
    [addr_man.get_addresses_for_color_set(self.color_set)]. *)
Definition get_result (self : UTXOQuery) (addresses : list AddressRec)
  : list UTXO.t :=
  foldl (fun utxos address => utxos ++ get_utxos_for_address self address)
    [] addresses.

(** *** Configuration: [UTXOFetcher.__init__] and [UTXOManager.__init__] *)

(** The values found in a configuration: [None], booleans, integers,
    strings, and dicts with string keys. *)
#[warnings="-register-all"]
Inductive pyobj : Type :=
  | ONone
  | OBool (b : bool)
  | OInt (n : Z)
  | OStr (s : string)
  | ODict (items : list (string * pyobj)).

(** Looking a key up among the items of a dict. *)
Fixpoint items_lookup (items : list (string * pyobj)) (key : string)
  : option pyobj :=
  match items with
  | [] => None
  | (k, v) :: items' =>
      if String.eqb k key then Some v else items_lookup items' key
  end.

(** [d.get(key, default)]; only a dict has the method. *)
Definition py_get (d : pyobj) (key : string) (default : pyobj)
  : result pyobj :=
  match d with
  | ODict items =>
      Ok (match items_lookup items key with
          | Some v => v
          | None => default
          end)
  | _ => Raise AttributeError
  end.

(** Truth value of an object in an [if]. *)
Definition py_truthy (v : pyobj) : bool :=
  match v with
  | ONone => false
  | OBool b => b
  | OInt n => negb (n =? 0)
  | OStr s => negb (String.eqb s "")
  | ODict items => match items with [] => false | _ => true end
  end.

(** [v == s] for a string literal [s]. *)
Definition py_eq_str (v : pyobj) (s : string) : bool :=
  match v with
  | OStr s' => String.eqb s' s
  | _ => false
  end.

(** The interface a fetcher ends up with. *)
Inductive interface : Type :=
  | BlockchainInfoInterface
  | AbeInterface
  | ElectrumInterface (electrum_server electrum_port : pyobj).

Definition DEFAULT_ELECTRUM_SERVER : string := "btc.it-zone.org".
Definition DEFAULT_ELECTRUM_PORT : Z := 50001.

(** [UTXOFetcher.__init__]: the interface chosen from [params]. *)
Definition fetcher_init (params : pyobj) : result interface :=
  use ← py_get params "interface" (OStr "blockchain.info");
  if py_eq_str use "blockchain.info" then Ok BlockchainInfoInterface
  else if py_eq_str use "testnet" then Ok AbeInterface
  else if py_eq_str use "electrum" then
    electrum_server ← py_get params "electrum_server"
                        (OStr DEFAULT_ELECTRUM_SERVER);
    electrum_port ← py_get params "electrum_port"
                      (OInt DEFAULT_ELECTRUM_PORT);
    Ok (ElectrumInterface electrum_server electrum_port)
  else Raise (Exception "unknown service for UTXOFetcher").

(** [UTXOManager.__init__]: the path handed to [UTXOStore] and the interface
    of the [UTXOFetcher]. *)
Definition manager_init (config : pyobj) : result (pyobj * interface) :=
  params ← py_get config "utxodb" (ODict []);
  testnet ← py_get config "testnet" (OBool false);
  fetcher_config ←
    (if py_truthy testnet then Ok (ODict [("interface"%string, OStr "testnet")])
     else py_get params "utxo_fetcher" (ODict []));
  dbpath ← py_get params "dbpath" (OStr "utxo.db");
  utxo_fetcher ← fetcher_init fetcher_config;
  Ok (dbpath, utxo_fetcher).

(** An [int] for the examples: it reads a non-empty string of decimal
    digits and refuses anything else. *)
Definition digit_value (c : ascii) : option Z :=
  let n := Z.of_nat (Ascii.nat_of_ascii c) in
  if (48 <=? n) && (n <=? 57) then Some (n - 48) else None.

Fixpoint read_digits (acc : Z) (s : string) : option Z :=
  match s with
  | EmptyString => Some acc
  | String c s' =>
      match digit_value c with
      | Some d => read_digits (10 * acc + d) s'
      | None => None
      end
  end.

Definition demo_int (s : string) : option Z :=
  match s with
  | EmptyString => None
  | _ => read_digits 0 s
  end.

(** A chain source that knows two addresses and fails on any other. *)
Definition demo_get_utxo (address : string) : exn + list utxo_data :=
  if String.eqb address "addr1"
  then inr [("tx1"%string, 0, 500, "scr"%string);
            ("tx2"%string, 1, 300, "scr"%string)]
  else if String.eqb address "addr3"
  then inr [("tx3"%string, 0, 50, "scr"%string);
            ("tx1"%string, 0, 500, "scr"%string);
            ("tx4"%string, 2, 70, "scr"%string)]
  else inl (Exception "no such address").

Definition demo_time (k : nat) : Z := 1000 + Z.of_nat k.

Definition demo_sync : SyncState :=
  {| sync_store := empty_store; clock := 0; printed := [] |}.

(** * Properties of the kernel *)

Section KernelFacts.
Variable self : OBColorDefinition.
Variable tx : Tx.
Variable in_colorstates : list colorstate.

(** The inner loop leaves only once the output is covered. *)
Lemma while_loop_exit fuel o_value st st' :
  while_loop fuel tx in_colorstates o_value st = Ok st' ->
  o_value <= cur_value st'.
Proof.
  revert st. induction fuel as [|fuel IH]; intros st; simpl.
  - destruct (cur_value st <? o_value) eqn:E; [discriminate|].
    intros [= <-]. lia.
  - destruct (cur_value st <? o_value) eqn:E.
    + destruct (inputs tx !! inp_index st) as [i|]; [|discriminate].
      destruct (if colored st then _ else _) as [c| |]; simpl;
        try discriminate.
      apply IH.
    + intros [= <-]. lia.
Qed.

(** So [cur_value] never decreases across the inner loop, whatever the
    signs of the input values. *)
Lemma while_loop_cur_mono fuel o_value st st' :
  while_loop fuel tx in_colorstates o_value st = Ok st' ->
  cur_value st <= cur_value st'.
Proof.
  intros H. pose proof (while_loop_exit _ _ _ _ H) as Hex.
  destruct fuel; simpl in H;
    destruct (cur_value st <? o_value) eqn:E; try discriminate;
    try (injection H as <-); lia.
Qed.

(** An output that is already covered consumes nothing. *)
Lemma while_loop_covered fuel o_value st :
  o_value <= cur_value st ->
  while_loop fuel tx in_colorstates o_value st = Ok st.
Proof.
  intros H. destruct fuel; simpl;
    destruct (cur_value st <? o_value) eqn:E; try reflexivity; lia.
Qed.

(** The bound [while_fuel] is never exhausted. *)
Lemma while_loop_fuel_enough fuel o_value st :
  (length (inputs tx) - inp_index st < fuel)%nat ->
  while_loop fuel tx in_colorstates o_value st <> OutOfFuel.
Proof.
  revert st. induction fuel as [|fuel IH]; intros st Hf; [lia|].
  simpl. destruct (cur_value st <? o_value); [|discriminate].
  destruct (inputs tx !! inp_index st) as [i|] eqn:Hi; [|discriminate].
  apply lookup_lt_Some in Hi.
  destruct (if colored st then _ else _) as [c| |] eqn:Hc; simpl.
  - apply IH. simpl. lia.
  - discriminate.
  - destruct (colored st); [|discriminate].
    unfold in_colorstate_present in Hc.
    destruct (in_colorstates !! inp_index st); discriminate.
Qed.

Lemma kernel_step_fuel_enough is_genesis out_index o st :
  kernel_step self tx in_colorstates is_genesis out_index o st <> OutOfFuel.
Proof.
  unfold kernel_step.
  pose proof (while_loop_fuel_enough (while_fuel tx) (TxOut.value o)
                (reset st)) as H.
  destruct (while_loop _ _ _ _ _); simpl; try discriminate.
  exfalso. apply H; [unfold while_fuel; lia | reflexivity].
Qed.

Lemma for_outputs_fuel_enough is_genesis outs out_index st acc :
  for_outputs self tx in_colorstates is_genesis outs out_index st acc
  <> OutOfFuel.
Proof.
  revert out_index st acc.
  induction outs as [|o outs IH]; intros out_index st acc; simpl;
    [discriminate|].
  pose proof (kernel_step_fuel_enough is_genesis out_index o st) as H.
  destruct (kernel_step _ _ _ _ _ _ _) as [r| |]; simpl;
    [apply IH | discriminate | congruence].
Qed.

(** [reset] and the genesis override only touch the [colored] flag. *)
Lemma cursor_reset st : cursor (reset st) = cursor st.
Proof. unfold reset. destruct (cur_value st =? 0); reflexivity. Qed.

Lemma cursor_genesis_override is_genesis out_index st :
  cursor (genesis_override self is_genesis out_index st) = cursor st.
Proof.
  unfold genesis_override.
  destruct (is_genesis && _); reflexivity.
Qed.

(** With a colorstate entry for every input, the cursor of the inner
    loop is the colour-blind walk's. *)
Lemma while_loop_cursor fuel o_value st :
  (length (inputs tx) <= length in_colorstates)%nat ->
  cursor <$> while_loop fuel tx in_colorstates o_value st
  = walk_while fuel tx o_value (cursor st).
Proof.
  intros Hlen. revert st.
  induction fuel as [|fuel IH]; intros st;
    cbn [while_loop walk_while cursor fst snd].
  - destruct (cur_value st <? o_value); reflexivity.
  - destruct (cur_value st <? o_value); [|reflexivity].
    destruct (inputs tx !! inp_index st) as [i|] eqn:Hi; [|reflexivity].
    apply lookup_lt_Some in Hi.
    unfold in_colorstate_present.
    destruct (in_colorstates !! inp_index st) as [cs|] eqn:Hcs.
    2:{ apply lookup_ge_None in Hcs. unfold colorstate in *. lia. }
    destruct (colored st); cbn [mbind result_bind]; rewrite IH;
      reflexivity.
Qed.

Lemma kernel_step_cursor is_genesis out_index o st :
  (length (inputs tx) <= length in_colorstates)%nat ->
  (fun r => cursor r.2)
    <$> kernel_step self tx in_colorstates is_genesis out_index o st
  = walk_while (while_fuel tx) tx (TxOut.value o) (cursor st).
Proof.
  intros Hlen. unfold kernel_step.
  rewrite <- cursor_reset, <- while_loop_cursor by assumption.
  destruct (while_loop _ _ _ _ _); simpl; try reflexivity.
  f_equal. apply cursor_genesis_override.
Qed.

Lemma for_outputs_cursor is_genesis outs out_index st acc :
  (length (inputs tx) <= length in_colorstates)%nat ->
  (fun r => cursor r.2)
    <$> for_outputs self tx in_colorstates is_genesis outs out_index st acc
  = walk_for tx outs (cursor st).
Proof.
  intros Hlen. revert out_index st acc.
  induction outs as [|o outs IH]; intros out_index st acc;
    cbn [for_outputs walk_for]; [reflexivity|].
  rewrite <- (kernel_step_cursor is_genesis out_index o st Hlen).
  destruct (kernel_step _ _ _ _ _ _ _) as [r| |];
    [apply IH | reflexivity | reflexivity].
Qed.

(** Splitting the [for] loop at an output. *)
Lemma for_outputs_app is_genesis pre post out_index st acc :
  for_outputs self tx in_colorstates is_genesis (pre ++ post) out_index
    st acc
  = r ← for_outputs self tx in_colorstates is_genesis pre out_index st acc;
    for_outputs self tx in_colorstates is_genesis post
      (out_index + length pre)%nat r.2 r.1.
Proof.
  revert out_index st acc.
  induction pre as [|o pre IH]; intros out_index st acc; simpl.
  - rewrite Nat.add_0_r. reflexivity.
  - destruct (kernel_step _ _ _ _ _ _ _) as [r| |]; simpl;
      [|reflexivity|reflexivity].
    rewrite IH. replace (S out_index + length pre)%nat
      with (out_index + S (length pre))%nat by lia. reflexivity.
Qed.

(** The result list only grows at its end. *)
Lemma for_outputs_result is_genesis outs out_index st acc res st' :
  for_outputs self tx in_colorstates is_genesis outs out_index st acc
    = Ok (res, st') ->
  exists suffix, res = acc ++ suffix /\ length suffix = length outs.
Proof.
  revert out_index st acc.
  induction outs as [|o outs IH]; intros out_index st acc; simpl.
  - intros [= <- <-]. exists []. split; [by rewrite app_nil_r | done].
  - destruct (kernel_step _ _ _ _ _ _ _) as [r| |]; simpl;
      [|discriminate|discriminate].
    intros H. apply IH in H as (suffix & -> & Hl).
    exists (r.1 :: suffix). split; [by rewrite <- app_assoc | simpl; lia].
Qed.

(** [cur_value] is never negative at an output boundary. *)
Lemma kernel_step_cur_nonneg is_genesis out_index o st cs st' :
  0 <= cur_value st ->
  kernel_step self tx in_colorstates is_genesis out_index o st
    = Ok (cs, st') ->
  0 <= cur_value st'.
Proof.
  intros H0. unfold kernel_step.
  destruct (while_loop _ _ _ _ _) as [st1| |] eqn:Hw; simpl;
    [|discriminate|discriminate].
  intros [= _ <-]. apply while_loop_cur_mono in Hw.
  assert (cur_value (reset st) = cur_value st) as Hr
    by (pose proof (cursor_reset st) as Hc; unfold cursor in Hc; congruence).
  assert (cur_value (genesis_override self is_genesis out_index st1)
          = cur_value st1) as Hg
    by (pose proof (cursor_genesis_override is_genesis out_index st1) as Hc;
        unfold cursor in Hc; congruence).
  lia.
Qed.

Lemma for_outputs_cur_nonneg is_genesis outs out_index st acc res st' :
  0 <= cur_value st ->
  for_outputs self tx in_colorstates is_genesis outs out_index st acc
    = Ok (res, st') ->
  0 <= cur_value st'.
Proof.
  revert out_index st acc.
  induction outs as [|o outs IH]; intros out_index st acc H0; simpl.
  - intros [= _ <-]. exact H0.
  - destruct (kernel_step _ _ _ _ _ _ _) as [[cs st1]| |] eqn:Hs; simpl;
      [|discriminate|discriminate].
    apply IH. eapply kernel_step_cur_nonneg; eauto.
Qed.
End KernelFacts.

(** The bound on the inner loop is never the reason [run_kernel] stops: it
    returns a result list or raises. *)
Lemma run_kernel_total self tx in_colorstates :
  run_kernel self tx in_colorstates <> OutOfFuel.
Proof.
  unfold run_kernel, run_kernel_state.
  pose proof (for_outputs_fuel_enough self tx in_colorstates
                (String.eqb (hash tx) (txhash (genesis self)))
                (outputs tx) 0%nat init_kstate []) as H.
  destruct (for_outputs _ _ _ _ _ _ _ _); simpl; congruence.
Qed.

(** With a colorstate entry for every input, the final [inp_index] and
    [cur_value] of [run_kernel] are those of the colour-blind walk: they
    depend neither on the colorstates nor on the colour definition. *)
Lemma run_kernel_cursor self tx in_colorstates :
  length in_colorstates = length (inputs tx) ->
  (fun r => cursor r.2) <$> run_kernel_state self tx in_colorstates
  = walk tx.
Proof.
  intros Hlen. unfold run_kernel_state, walk.
  apply for_outputs_cursor. lia.
Qed.

(** When the walk runs past the end of [tx.inputs], [run_kernel] raises
    [IndexError] whatever the colorstates of the inputs are. *)
Lemma run_kernel_past_end_raises self tx in_colorstates :
  length in_colorstates = length (inputs tx) ->
  walk tx = Raise IndexError ->
  run_kernel self tx in_colorstates = Raise IndexError.
Proof.
  intros Hlen Hw.
  pose proof (run_kernel_cursor self tx in_colorstates Hlen) as H.
  rewrite Hw in H. unfold run_kernel.
  destruct (run_kernel_state _ _ _); simpl in *; congruence.
Qed.

(** On the genesis transaction the entry written for the genesis output is
    present with the output's full value. *)
Lemma for_outputs_genesis_entry self tx in_colorstates outs :
  forall i out_index st acc res st' o,
    for_outputs self tx in_colorstates true outs out_index st acc
      = Ok (res, st') ->
    outs !! i = Some o ->
    Z.of_nat (out_index + i) = outindex (genesis self) ->
    res !! (length acc + i)%nat = Some (Some (TxOut.value o, "")).
Proof.
  induction outs as [|o' outs IH]; intros i out_index st acc res st' o;
    [intros _ Hl; by rewrite lookup_nil in Hl|].
  cbn [for_outputs].
  destruct (kernel_step _ _ _ _ _ _ _) as [[cs st1]| |] eqn:Hs;
    cbn [mbind result_bind fst snd]; [|discriminate|discriminate].
  intros Hf Hl Hk. destruct i as [|i].
  - injection Hl as ->.
    apply for_outputs_result in Hf as (suffix & -> & _).
    rewrite Nat.add_0_r in *.
    rewrite <- app_assoc, lookup_app_r by reflexivity.
    rewrite Nat.sub_diag. cbn [app lookup list_lookup]. f_equal.
    unfold kernel_step in Hs.
    destruct (while_loop _ _ _ _ _) as [st0| |];
      cbn [mbind result_bind] in Hs; [|discriminate|discriminate].
    injection Hs as <- _.
    unfold out_colorstate, genesis_override.
    rewrite (proj2 (Z.eqb_eq _ _) Hk). reflexivity.
  - cbn [lookup list_lookup] in Hl.
    specialize (IH i (S out_index) st1 (acc ++ [cs]) res st' o Hf Hl).
    rewrite length_app in IH. cbn [length] in IH.
    replace (length acc + S i)%nat with (length acc + 1 + i)%nat by lia.
    apply IH. rewrite <- Hk. lia.
Qed.

(** * The claims about [OBColorDefinition.run_kernel] *)

(** C1, at an input where the code departs from it: a transaction that is
    not the genesis transaction, with inputs of value 100 (coloured) and 100
    (uncoloured) and outputs of value 100 and 100. The run completes after
    consuming the first input only, and marks both outputs coloured: 200
    units of coloured output against 100 units of coloured input consumed. *)
Theorem run_kernel_breaks_conservation :
  hash even_tx <> txhash (genesis demo_def)
  /\ input_total even_tx = output_total even_tx
  /\ exists res st,
       run_kernel_state demo_def even_tx [Some (100, ""); None] = Ok (res, st)
       /\ run_kernel demo_def even_tx [Some (100, ""); None] = Ok res
       /\ res = [Some (100, ""); Some (100, "")]
       /\ inp_index st = 1%nat
       /\ colored_output_total res = 200
       /\ colored_input_total even_tx [Some (100, ""); None] (inp_index st)
          = 100.
Proof.
  split; [discriminate|]. split; [reflexivity|].
  eexists _, _. split; [vm_compute; reflexivity|].
  repeat split.
Qed.

(** C3: a non-genesis transaction with one input of value 100 and outputs
    of value 40 and 60. If [in_colorstates[0]] is present both outputs are
    marked coloured, if it is absent both are marked uncoloured; after
    output 0 [cur_value] is 100, so output 1 does not reset. *)
Theorem carry_over_100_into_40_60 self tx i o0 o1 rest :
  hash tx <> txhash (genesis self) ->
  inputs tx = [i] -> TxIn.value i = 100 ->
  outputs tx = [o0; o1] -> TxOut.value o0 = 40 -> TxOut.value o1 = 60 ->
  (forall v, run_kernel self tx (Some v :: rest)
             = Ok [Some (40, ""); Some (60, "")])
  /\ run_kernel self tx (None :: rest) = Ok [None; None]
  /\ (forall c, exists cs st,
        kernel_step self tx (c :: rest) false 0 o0 init_kstate = Ok (cs, st)
        /\ cur_value st = 100 /\ reset st = st).
Proof.
  intros Hh Hi Hv Ho Hv0 Hv1.
  apply String.eqb_neq in Hh.
  destruct tx as [h ins outs], i as [vi], o0 as [v0 s0], o1 as [v1 s1].
  cbn [hash inputs outputs TxIn.value TxOut.value] in *. subst.
  unfold run_kernel, run_kernel_state, kernel_step, while_fuel.
  cbn [hash inputs outputs]. rewrite Hh.
  split; [intros v; reflexivity|]. split; [reflexivity|].
  intros c. destruct c; eexists _, _; (split; [reflexivity|]);
    split; reflexivity.
Qed.

(** The carry-over theorem at the transaction ["aa"] with input [100] and
    outputs [40; 60]. *)
Lemma carry_over_100_into_40_60_witness :
  run_kernel demo_def (demo_tx "aa" [100] [40; 60]) [Some (100, "")]
  = Ok [Some (40, ""); Some (60, "")]
  /\ run_kernel demo_def (demo_tx "aa" [100] [40; 60]) [None]
     = Ok [None; None].
Proof.
  destruct (carry_over_100_into_40_60 demo_def (demo_tx "aa" [100] [40; 60])
              (TxIn.mk 100) (TxOut.mk 40 "") (TxOut.mk 60 "") [])
    as (H1 & H2 & _);
    [discriminate | reflexivity | reflexivity | reflexivity | reflexivity
    | reflexivity |].
  split; [apply H1 | apply H2].
Defined.

(** C4, at an input where the code departs from it: one input of value 100
    and two outputs of value 100 each. The inputs total 100, the outputs
    200, and [run_kernel] returns a result list marking both outputs
    coloured instead of raising. *)
Theorem run_kernel_accepts_shortfall :
  input_total short_tx = 100 /\ output_total short_tx = 200
  /\ run_kernel demo_def short_tx [Some (100, "")]
     = Ok [Some (100, ""); Some (100, "")]
  /\ run_kernel demo_def short_tx [None] = Ok [None; None].
Proof. repeat split. Qed.

(** C2: on the genesis transaction, when the walk does not run past the end
    of the inputs, [run_kernel] returns, for every assignment of
    [in_colorstates] to the inputs, a result whose entry at the genesis
    outindex is present as [(o.value, '')]; the final [inp_index] and
    [cur_value] are those of the colour-blind walk, so the override
    consumes nothing of its own. *)
Theorem genesis_output_minted self tx in_colorstates k o c :
  hash tx = txhash (genesis self) ->
  outputs tx !! k = Some o ->
  Z.of_nat k = outindex (genesis self) ->
  length in_colorstates = length (inputs tx) ->
  walk tx = Ok c ->
  exists res st,
    run_kernel_state self tx in_colorstates = Ok (res, st)
    /\ run_kernel self tx in_colorstates = Ok res
    /\ res !! k = Some (Some (TxOut.value o, ""))
    /\ cursor st = c.
Proof.
  intros Hh Ho Hk Hlen Hw.
  unfold run_kernel, run_kernel_state.
  apply String.eqb_eq in Hh. rewrite Hh.
  pose proof (for_outputs_cursor self tx in_colorstates true (outputs tx)
                0%nat init_kstate [] ltac:(lia)) as Hc.
  change (walk_for tx (outputs tx) (cursor init_kstate)) with (walk tx) in Hc.
  rewrite Hw in Hc.
  destruct (for_outputs _ _ _ _ _ _ _ _) as [[res st]| |] eqn:Hf;
    [|discriminate|discriminate].
  exists res, st. split; [reflexivity|]. split; [reflexivity|].
  split; [|by injection Hc].
  exact (for_outputs_genesis_entry self tx in_colorstates (outputs tx)
           k 0%nat init_kstate [] res st o Hf Ho Hk).
Qed.

(** The genesis theorem at inputs [30; 70], both uncoloured, and outputs
    [20; 60]: output 1 is minted with value 60. *)
Lemma genesis_output_minted_witness :
  exists res st,
    run_kernel_state demo_def (demo_tx "gen" [30; 70] [20; 60]) [None; None]
      = Ok (res, st)
    /\ run_kernel demo_def (demo_tx "gen" [30; 70] [20; 60]) [None; None]
       = Ok res
    /\ res !! 1%nat = Some (Some (60, ""))
    /\ cursor st = (2%nat, 100).
Proof.
  apply (genesis_output_minted demo_def (demo_tx "gen" [30; 70] [20; 60])
           [None; None] 1%nat (TxOut.mk 60 "") (2%nat, 100));
    reflexivity.
Defined.

(** C5 fails as it is stated: on the genesis transaction ["gen"] with one
    uncoloured input of value 50 and outputs of value 50 and 0, the flag
    carried into output 1 is false and is not reset, yet the zero-value
    output 1, being the genesis output, is marked present. *)
Lemma zero_value_genesis_output_is_colored :
  ~ (forall self tx in_colorstates pre o post acc st cs st',
       outputs tx = pre ++ o :: post ->
       for_outputs self tx in_colorstates (is_special_tx self tx) pre 0%nat
         init_kstate [] = Ok (acc, st) ->
       TxOut.value o = 0 ->
       kernel_step self tx in_colorstates (is_special_tx self tx)
         (length pre) o st = Ok (cs, st') ->
       cs = if colored (reset st) then Some (0, "") else None).
Proof.
  intros H.
  specialize (H demo_def (demo_tx "gen" [50] [50; 0]) [None]
                [TxOut.mk 50 ""] (TxOut.mk 0 "") [] [None]
                {| inp_index := 1; cur_value := 50; colored := false |}
                (Some (0, ""))
                {| inp_index := 1; cur_value := 50; colored := true |}
                eq_refl eq_refl eq_refl eq_refl).
  discriminate H.
Qed.

(** C5, amended: when the run reaches an output of value 0, the inner loop
    consumes no input; the colorstate written for it is present as
    [(0, '')] when the flag carried over from the preceding segment (after
    the reset, if [cur_value] is 0) is true and absent otherwise, unless the
    output is the genesis output of the genesis transaction, which the
    override marks present. That colorstate is the entry of the result at
    the output's index. *)
Theorem zero_value_output_carries_flag self tx in_colorstates pre o post
    acc st :
  outputs tx = pre ++ o :: post ->
  for_outputs self tx in_colorstates (is_special_tx self tx) pre 0%nat
    init_kstate [] = Ok (acc, st) ->
  TxOut.value o = 0 ->
  exists cs st',
    kernel_step self tx in_colorstates (is_special_tx self tx) (length pre)
      o st = Ok (cs, st')
    /\ cursor st' = cursor st
    /\ cs = (if is_special_tx self tx
                && (Z.of_nat (length pre) =? outindex (genesis self))
             then Some (0, "")
             else if colored (reset st) then Some (0, "") else None)
    /\ forall res st_end,
         run_kernel_state self tx in_colorstates = Ok (res, st_end) ->
         res !! length pre = Some cs.
Proof.
  intros Ho Hpre Hv. set (is_genesis := is_special_tx self tx) in *.
  assert (0 <= cur_value st) as Hnn
    by (eapply for_outputs_cur_nonneg; [|exact Hpre]; simpl; lia).
  assert (kernel_step self tx in_colorstates is_genesis (length pre) o st
          = Ok (out_colorstate o
                  (genesis_override self is_genesis (length pre) (reset st)),
                genesis_override self is_genesis (length pre) (reset st)))
    as Hstep.
  { unfold kernel_step. rewrite while_loop_covered; [reflexivity|].
    rewrite Hv. pose proof (cursor_reset st) as Hc. unfold cursor in Hc.
    injection Hc as _ ->. exact Hnn. }
  eexists _, _. split; [exact Hstep|]. split; [|split].
  - rewrite cursor_genesis_override. apply cursor_reset.
  - unfold out_colorstate, genesis_override. rewrite Hv.
    destruct (is_genesis && _); [reflexivity|].
    destruct (colored (reset st)); reflexivity.
  - intros res st_end Hrun. unfold run_kernel_state in Hrun.
    change (String.eqb (hash tx) (txhash (genesis self)))
      with is_genesis in Hrun.
    rewrite Ho, for_outputs_app, Hpre in Hrun.
    cbn [mbind result_bind fst snd for_outputs] in Hrun.
    rewrite Nat.add_0_l, Hstep in Hrun.
    cbn [mbind result_bind fst snd] in Hrun.
    apply for_outputs_result in Hrun as (suffix & -> & _).
    apply for_outputs_result in Hpre as (pre_res & -> & Hl).
    rewrite <- app_assoc, lookup_app_r by (simpl; lia).
    simpl. rewrite Hl, Nat.sub_diag. reflexivity.
Qed.

(** The zero-value theorem at output 2 of a transaction with outputs
    [0; 50; 0] and one coloured input of value 50. *)
Lemma zero_value_output_carries_flag_witness :
  exists cs st',
    kernel_step demo_def (demo_tx "aa" [50] [0; 50; 0]) [Some (50, "")]
      false 2
      (TxOut.mk 0 "") {| inp_index := 1; cur_value := 50; colored := true |}
      = Ok (cs, st')
    /\ cursor st' = (1%nat, 50)
    /\ cs = Some (0, "")
    /\ forall res st_end,
         run_kernel_state demo_def (demo_tx "aa" [50] [0; 50; 0])
           [Some (50, "")] = Ok (res, st_end) ->
         res !! 2%nat = Some cs.
Proof.
  apply (zero_value_output_carries_flag demo_def
           (demo_tx "aa" [50] [0; 50; 0]) [Some (50, "")]
           [TxOut.mk 0 ""; TxOut.mk 50 ""] (TxOut.mk 0 "") []
           [Some (0, ""); Some (50, "")]
           {| inp_index := 1; cur_value := 50; colored := true |});
    reflexivity.
Defined.

(** * Properties of the composer *)

Section ComposerFacts.
Context {W coin : Type}.
Variable op_tx_spec : OperationalTxSpec W coin.
Variable self : OBColorDefinition.

(** Rules for a property of the call log. *)
Lemma keeps_log_ret {A} P (a : A) : keeps_log (W := W) P (m_ret a).
Proof. intros s H. exact H. Qed.

Lemma keeps_log_lift {A} P (r : result A) : keeps_log (W := W) P (m_lift r).
Proof. intros s H. exact H. Qed.

Lemma keeps_log_call {A} P c (f : W -> result A * W) :
  (forall l, P l -> P (l ++ [c])) -> keeps_log P (m_call c f).
Proof.
  intros Hc [w l] H. unfold m_call. simpl.
  destruct (f w) as [r w']. simpl. apply Hc, H.
Qed.

Lemma keeps_log_bind {A B} P (m : M W A) (k : A -> M W B) :
  keeps_log P m -> (forall a, keeps_log P (k a)) -> keeps_log P (m_bind m k).
Proof.
  intros Hm Hk s H. unfold m_bind. specialize (Hm s H).
  destruct (m s) as [[a| |] s']; simpl in *; [apply Hk, Hm | exact Hm..].
Qed.

(** Rules for a property of the returned value. *)
Lemma returns_bind {A B} (Q : B -> Prop) (m : M W A) (k : A -> M W B) :
  (forall a, returns Q (k a)) -> returns Q (m_bind m k).
Proof.
  intros Hk s b s'. unfold m_bind.
  destruct (m s) as [[a| |] s1]; [apply Hk | discriminate..].
Qed.

Lemma keeps_log_append_change P change c targets :
  (forall l, P l -> P (l ++ [CallGetChangeAddr c])) ->
  keeps_log P (append_change op_tx_spec change c targets).
Proof.
  intros Hc. unfold append_change. destruct (change >? 0).
  - apply keeps_log_bind; [apply keeps_log_call, Hc|].
    intros a. apply keeps_log_ret.
  - apply keeps_log_ret.
Qed.

(** The partition loop raises as soon as it meets an unsupported target. *)
Lemma partition_targets_unsupported targets :
  forall colored_targets uncolored_targets,
    Exists (fun t => unsupported self t = true) targets ->
    partition_targets self targets colored_targets uncolored_targets
    = Raise (Exception "ColorDef cannot work with this color_id").
Proof.
  induction targets as [|t targets IH]; intros ct ut Hex;
    [by apply Exists_nil in Hex|].
  cbn [partition_targets].
  destruct (py_eq_int (item1 t) (color_id self)) eqn:E1.
  - apply IH. apply Exists_cons in Hex as [Hu|Hex]; [|exact Hex].
    unfold unsupported in Hu. rewrite E1 in Hu. discriminate.
  - destruct (py_eq_int (item1 t) 0) eqn:E0; [|reflexivity].
    apply IH. apply Exists_cons in Hex as [Hu|Hex]; [|exact Hex].
    unfold unsupported in Hu. rewrite E1, E0 in Hu. discriminate.
Qed.

(** Building a [TxOut] always raises, so the comprehension over the targets
    returns only for an empty list. *)
Lemma make_txout_raises t : make_txout t = Raise AttributeError.
Proof. unfold make_txout. destruct (item2 t); reflexivity. Qed.

Lemma comprehension_make_txout targets txouts :
  comprehension make_txout targets = Ok txouts ->
  targets = [] /\ txouts = [].
Proof.
  destruct targets as [|t targets]; cbn [comprehension].
  - intros [= <-]. done.
  - rewrite make_txout_raises. discriminate.
Qed.

(** Whenever [compose_tx_spec] returns a draft, the draft has no output and
    there was no target and no change to pay. *)
Lemma compose_tx_spec_returns_no_output :
  returns (fun d => ComposedTxSpec.txouts d = [])
    (compose_tx_spec op_tx_spec self).
Proof.
  unfold compose_tx_spec.
  apply returns_bind; intros targets.
  apply returns_bind; intros [colored_targets uncolored_targets].
  apply returns_bind; intros colored_needed.
  apply returns_bind; intros uncolored_needed.
  apply returns_bind; intros [colored_inputs colored_total].
  apply returns_bind; intros fee.
  apply returns_bind; intros [uncolored_inputs uncolored_total].
  apply returns_bind; intros colored_targets'.
  apply returns_bind; intros uncolored_targets'.
  intros s d s'. unfold m_bind, m_lift, m_ret.
  destruct (comprehension _ _) as [txouts| |] eqn:Hc; [|discriminate..].
  apply comprehension_make_txout in Hc as [_ ->].
  intros [= <- _]. reflexivity.
Qed.

(** Every coin selection of a run is logged with [self.color_id]. *)
Lemma compose_tx_spec_selects_with_own_color :
  keeps_log (Forall (selects_with self)) (compose_tx_spec op_tx_spec self).
Proof.
  assert (forall c, selects_with self c ->
            forall l, Forall (selects_with self) l ->
                      Forall (selects_with self) (l ++ [c])) as Hadd.
  { intros c Hc l Hl. apply Forall_app. split; [exact Hl|].
    by apply Forall_singleton. }
  unfold compose_tx_spec.
  apply keeps_log_bind; [by apply keeps_log_call, Hadd|]; intros targets.
  apply keeps_log_bind; [apply keeps_log_lift|];
    intros [colored_targets uncolored_targets].
  apply keeps_log_bind; [apply keeps_log_lift|]; intros colored_needed.
  apply keeps_log_bind; [apply keeps_log_lift|]; intros uncolored_needed.
  apply keeps_log_bind; [by apply keeps_log_call, Hadd|];
    intros [colored_inputs colored_total].
  apply keeps_log_bind; [by apply keeps_log_call, Hadd|]; intros fee.
  apply keeps_log_bind; [by apply keeps_log_call, Hadd|];
    intros [uncolored_inputs uncolored_total].
  apply keeps_log_bind; [by apply keeps_log_append_change, Hadd|];
    intros colored_targets'.
  apply keeps_log_bind; [by apply keeps_log_append_change, Hadd|];
    intros uncolored_targets'.
  apply keeps_log_bind; [apply keeps_log_lift|]; intros txouts.
  apply keeps_log_ret.
Qed.
End ComposerFacts.

(** Stepping through a bind whose first computation is known. *)
Lemma m_bind_ok {W A B} (m : M W A) (k : A -> M W B) s a s' :
  m s = (Ok a, s') -> m_bind m k s = k a s'.
Proof. intros H. unfold m_bind. rewrite H. reflexivity. Qed.

Lemma m_bind_raise {W A B} (m : M W A) (k : A -> M W B) s e s' :
  m s = (Raise e, s') -> m_bind m k s = (Raise e, s').
Proof. intros H. unfold m_bind. rewrite H. reflexivity. Qed.

Lemma m_call_run {W A} c (f : W -> result A * W) w l r w' :
  f w = (r, w') -> m_call c f (w, l) = (r, (w', l ++ [c])).
Proof. intros H. unfold m_call. simpl. rewrite H. reflexivity. Qed.

(** One step of a run: the leading call, or pure computation, is replaced
    by its known outcome. *)
Ltac step_call H :=
  erewrite m_bind_ok by (apply m_call_run, H); cbv beta iota; cbn [app].
Ltac step_lift H :=
  erewrite m_bind_ok by (unfold m_lift; rewrite H; reflexivity);
  cbv beta iota.

(** * The claims about [OBColorDefinition.compose_tx_spec] *)

(** C7: when some target has a color id that is neither [self.color_id] nor
    [0], [compose_tx_spec] raises its exception with [get_targets] as the
    only call made on [op_tx_spec]: [select_coins] is never called, and the
    state of [op_tx_spec] is the one [get_targets] left. *)
Theorem unsupported_target_raises_before_selection {W coin}
    (op_tx_spec : OperationalTxSpec W coin) self w targets w1 :
  get_targets op_tx_spec w = (Ok targets, w1) ->
  Exists (fun t => unsupported self t = true) targets ->
  run_compose op_tx_spec self w
  = (Raise (Exception "ColorDef cannot work with this color_id"),
     (w1, [CallGetTargets])).
Proof.
  intros Hgt Hex. unfold run_compose, compose_tx_spec.
  step_call Hgt. apply m_bind_raise. unfold m_lift.
  rewrite partition_targets_unsupported by exact Hex. reflexivity.
Qed.

(** The theorem at a definition of color id 7 and a target of color id 3:
    the selection counter of [demo_ops] stays at 0. *)
Lemma unsupported_target_raises_before_selection_witness :
  run_compose
    (demo_ops [(PInt 1000, PInt 7, PStr "addr"); (PInt 5, PInt 3, PStr "b")]
       10) demo_def 0%nat
  = (Raise (Exception "ColorDef cannot work with this color_id"),
     (0%nat, [CallGetTargets])).
Proof.
  apply (unsupported_target_raises_before_selection
           (demo_ops [(PInt 1000, PInt 7, PStr "addr");
                      (PInt 5, PInt 3, PStr "b")] 10)
           demo_def 0%nat
           [(PInt 1000, PInt 7, PStr "addr"); (PInt 5, PInt 3, PStr "b")]
           0%nat).
  - reflexivity.
  - apply Exists_cons_tl, Exists_cons_hd. reflexivity.
Defined.

(** C8, at inputs where the code departs from it. A single supported
    target [(1000, 7, "addr")] for a definition of color id 7: summing
    [target[2]] adds the destination to [0] and raises [TypeError] before
    any coin is selected. With the fields in the order the sums read them,
    [("addr", 7, 1000)], the coins are selected and building the output
    from [target[2]. target[0]] raises [AttributeError]. No draft is
    returned in either case. *)
Theorem compose_tx_spec_raises_on_supported_target :
  run_compose (demo_ops [(PInt 1000, PInt 7, PStr "addr")] 10) demo_def 0%nat
  = (Raise TypeError, (0%nat, [CallGetTargets]))
  /\ run_compose (demo_ops [(PStr "addr", PInt 7, PInt 1000)] 10) demo_def
       0%nat
     = (Raise AttributeError,
        (2%nat,
         [CallGetTargets; CallSelectCoins 7 1000; CallGetRequiredFee 750;
          CallSelectCoins 7 750; CallGetChangeAddr 7; CallGetChangeAddr 0])).
Proof. split; reflexivity. Qed.

(** C10: in every run of [compose_tx_spec] each call to [select_coins] is
    made with [self.color_id]; and once the targets are partitioned and
    summed and the first selection and the fee have returned, the calls made
    are [get_targets], [select_coins(self.color_id, colored_needed)],
    [get_required_fee(750)] and
    [select_coins(self.color_id, uncolored_needed + fee)], followed by no
    further selection. *)
Theorem both_selections_use_own_color_id {W coin}
    (op_tx_spec : OperationalTxSpec W coin) self w :
  Forall (selects_with self) (run_compose op_tx_spec self w).2.2
  /\ forall targets w1 colored_targets uncolored_targets colored_needed
       uncolored_needed colored_inputs colored_total w2 fee w3,
       get_targets op_tx_spec w = (Ok targets, w1) ->
       partition_targets self targets [] []
         = Ok (colored_targets, uncolored_targets) ->
       py_sum (map item2 colored_targets) = Ok colored_needed ->
       py_sum (map item2 uncolored_targets) = Ok uncolored_needed ->
       select_coins op_tx_spec (color_id self) colored_needed w1
         = (Ok (colored_inputs, colored_total), w2) ->
       get_required_fee op_tx_spec 750 w2 = (Ok fee, w3) ->
       exists rest,
         (run_compose op_tx_spec self w).2.2
         = [CallGetTargets;
            CallSelectCoins (color_id self) colored_needed;
            CallGetRequiredFee 750;
            CallSelectCoins (color_id self) (uncolored_needed + fee)]
           ++ rest
         /\ Forall (fun c => is_select_coins c = false) rest.
Proof.
  split.
  - apply (compose_tx_spec_selects_with_own_color op_tx_spec self (w, [])).
    constructor.
  - intros targets w1 colored_targets uncolored_targets colored_needed
      uncolored_needed colored_inputs colored_total w2 fee w3
      Hgt Hpart Hcn Hun Hsel Hfee.
    unfold run_compose, compose_tx_spec.
    step_call Hgt. step_lift Hpart. step_lift Hcn. step_lift Hun.
    step_call Hsel. step_call Hfee.
    set (prefix := [CallGetTargets;
                    CallSelectCoins (color_id self) colored_needed;
                    CallGetRequiredFee 750;
                    CallSelectCoins (color_id self) (uncolored_needed + fee)]).
    set (P := fun l : list call =>
                exists rest, l = prefix ++ rest
                             /\ Forall (fun c => is_select_coins c = false)
                                  rest).
    assert (forall c l, P l -> P (l ++ [CallGetChangeAddr c])) as Hadd.
    { intros c l (rest & -> & Hrest). exists (rest ++ [CallGetChangeAddr c]).
      split; [by rewrite app_assoc|].
      apply Forall_app. split; [exact Hrest|]. by apply Forall_singleton. }
    assert (P prefix) as Hprefix
      by (exists []; split; [by rewrite app_nil_r | constructor]).
    destruct (select_coins op_tx_spec (color_id self) (uncolored_needed + fee)
                w3) as [[[uncolored_inputs uncolored_total]| |] w4] eqn:Hsel2.
    + step_call Hsel2.
      match goal with
      | |- context [m_bind ?m ?k (w4, ?l)] =>
          change (P (m_bind m k (w4, prefix)).2.2);
          apply (keeps_log_bind P m k)
      end; [by apply keeps_log_append_change, Hadd | | exact Hprefix].
      intros colored_targets'.
      apply keeps_log_bind; [by apply keeps_log_append_change, Hadd|].
      intros uncolored_targets'.
      apply keeps_log_bind; [apply keeps_log_lift|]. intros txouts.
      apply keeps_log_ret.
    + erewrite m_bind_raise by (apply m_call_run, Hsel2). exact Hprefix.
    + unfold m_bind. erewrite m_call_run by exact Hsel2. exact Hprefix.
Qed.

(** The theorem at a single uncoloured target of value 300: the coins for
    it and the fee are selected with color id 7. *)
Lemma both_selections_use_own_color_id_witness :
  Forall (selects_with demo_def)
    (run_compose (demo_ops [(PStr "addr", PInt 0, PInt 300)] 10) demo_def
       0%nat).2.2
  /\ exists rest,
       (run_compose (demo_ops [(PStr "addr", PInt 0, PInt 300)] 10) demo_def
          0%nat).2.2
       = [CallGetTargets; CallSelectCoins 7 0; CallGetRequiredFee 750;
          CallSelectCoins 7 (300 + 750)] ++ rest
       /\ Forall (fun c => is_select_coins c = false) rest.
Proof.
  destruct (both_selections_use_own_color_id
              (demo_ops [(PStr "addr", PInt 0, PInt 300)] 10) demo_def 0%nat)
    as [H1 H2].
  split; [exact H1|].
  apply (H2 [(PStr "addr", PInt 0, PInt 300)] 0%nat []
            [(PStr "addr", PInt 0, PInt 300)] 0 300 [("coin"%string, 10)]
            10 1%nat 750 1%nat); reflexivity.
Defined.

(** * The claims about the UTXO store and the UTXO query *)

(** For a UTXO with colorvalues, [relevant] is decided by the first
    colorvalue alone. *)
Lemma relevant_first_colorvalue color_set utxo cv cvl :
  UTXO.colorvalues utxo = Some (cv :: cvl) ->
  relevant color_set utxo = has_color_id color_set cv.1.
Proof.
  intros H. unfold relevant. rewrite H.
  destruct (has_color_id color_set cv.1); reflexivity.
Qed.

(** So the filter agrees with its description whenever a UTXO has at most
    one colorvalue. *)
Lemma relevant_as_described_short color_set utxo cvl :
  UTXO.colorvalues utxo = Some cvl ->
  (length cvl <= 1)%nat ->
  relevant color_set utxo = keeps_described color_set cvl.
Proof.
  intros H Hl. unfold relevant, keeps_described. rewrite H.
  destruct cvl as [|cv [|cv' cvl]]; [reflexivity| |simpl in Hl; lia].
  cbn [existsb]. destruct (has_color_id color_set cv.1); reflexivity.
Qed.

(** C6, at an input where the code departs from it: a query for colour 2
    at an address declaring the colours 1 and 2, whose single UTXO carries
    the colorvalues [(1, 10)] and [(2, 20)]. The colorvalue list contains a
    colorvalue of the requested colour 2, yet the UTXO is dropped, because
    [relevant] returns on the first colorvalue, whose colour 1 is not
    requested. *)
Theorem relevant_drops_later_colorvalue :
  get_color_set demo_address <> {[ 0 ]}
  /\ length (manager_get_utxos_for_address (utxo_manager demo_query)
               (get_address demo_address)) = 1%nat
  /\ get_colorvalues demo_query (get_color_set demo_address) "tx1" 0
     = [(1, 10); (2, 20)]
  /\ keeps_described (color_set demo_query) [(1, 10); (2, 20)] = true
  /\ get_utxos_for_address demo_query demo_address = [].
Proof.
  split.
  { intros H. assert (1 ∈ ({[ 0 ]} : gset Z)) as H1
      by (rewrite <- H; unfold demo_address; simpl; set_solver).
    set_solver. }
  repeat split; vm_compute; reflexivity.
Qed.

(** After a successful [add_utxo] the store has the outpoint. *)
Lemma add_utxo_has_outpoint now address txhash outindex value script
    scantime commitment db db' :
  add_utxo now address txhash outindex value script scantime commitment db
    = (Ok tt, db') ->
  has_outpoint db' txhash outindex = true.
Proof.
  unfold add_utxo, execute_insert.
  destruct (has_outpoint db txhash outindex) eqn:E; [discriminate|].
  intros [= <-]. unfold has_outpoint. cbn [rows].
  rewrite existsb_app. cbn [existsb UtxoRow.txhash UtxoRow.outindex].
  rewrite String.eqb_refl, Z.eqb_refl. apply orb_true_iff. right.
  reflexivity.
Qed.

(** C9: when the store already has a row with the outpoint
    [(txhash, outindex)], [add_utxo] with that outpoint raises the
    constraint error and leaves the store, rows included, as it was,
    whatever the other fields are. *)
Theorem add_utxo_duplicate_outpoint_rejected now address txhash outindex
    value script scantime commitment db :
  (exists r, r ∈ rows db
             /\ UtxoRow.txhash r = txhash /\ UtxoRow.outindex r = outindex) ->
  add_utxo now address txhash outindex value script scantime commitment db
  = (Raise IntegrityError, db)
  /\ rows (add_utxo now address txhash outindex value script scantime
             commitment db).2 = rows db.
Proof.
  intros (r & Hr & Ht & Ho).
  assert (has_outpoint db txhash outindex = true) as H.
  { unfold has_outpoint. apply existsb_exists. exists r.
    split; [by apply list_elem_of_In|].
    rewrite Ht, Ho, String.eqb_refl, Z.eqb_refl. reflexivity. }
  unfold add_utxo, execute_insert. rewrite H. split; reflexivity.
Qed.

(** The theorem at [demo_store] and its outpoint [("tx1", 0)]. *)
Lemma add_utxo_duplicate_outpoint_rejected_witness :
  add_utxo 120 "addr2" "tx1" 0 700 "other" (Some 5) 3 demo_store
  = (Raise IntegrityError, demo_store)
  /\ rows (add_utxo 120 "addr2" "tx1" 0 700 "other" (Some 5) 3 demo_store).2
     = rows demo_store.
Proof.
  apply (add_utxo_duplicate_outpoint_rejected 120 "addr2" "tx1" 0 700
           "other" (Some 5) 3 demo_store).
  exists (UtxoRow.mk 1 "addr1" "tx1" 0 500 "scr" 99 0).
  split; [apply list_elem_of_In; left; reflexivity|].
  split; reflexivity.
Defined.

(** A second [add_utxo] with the outpoint of a first, successful one is
    rejected and changes nothing. *)
Lemma add_utxo_twice_rejected now address txhash outindex value script
    scantime commitment db db' now' address' value' script' scantime'
    commitment' :
  add_utxo now address txhash outindex value script scantime commitment db
    = (Ok tt, db') ->
  add_utxo now' address' txhash outindex value' script' scantime'
    commitment' db'
  = (Raise IntegrityError, db').
Proof.
  intros H. apply add_utxo_has_outpoint in H.
  unfold add_utxo, execute_insert. rewrite H. reflexivity.
Qed.

(** * Further properties of [OBColorDefinition.run_kernel] *)

Lemma sum_values_app (l : list TxIn.t) i :
  foldr (fun i acc => TxIn.value i + acc) 0 (l ++ [i])
  = foldr (fun i acc => TxIn.value i + acc) 0 l + TxIn.value i.
Proof. induction l as [|j l IH]; simpl; lia. Qed.

Lemma consumed_total_S tx n i :
  inputs tx !! n = Some i ->
  consumed_total tx (S n) = consumed_total tx n + TxIn.value i.
Proof.
  intros H. unfold consumed_total.
  rewrite (take_S_r _ _ _ H). apply sum_values_app.
Qed.

Lemma consumed_total_all tx n :
  (length (inputs tx) <= n)%nat -> consumed_total tx n = input_total tx.
Proof. intros H. unfold consumed_total, input_total. by rewrite take_ge. Qed.

Lemma consumed_total_le tx n :
  Forall (fun i => 0 <= TxIn.value i) (inputs tx) ->
  consumed_total tx n <= input_total tx.
Proof.
  unfold consumed_total, input_total. generalize (inputs tx) as l.
  intros l. revert n. induction l as [|i l IH]; intros n Hnn.
  - by rewrite take_nil.
  - apply Forall_cons in Hnn as [Hi Hl]. destruct n as [|n]; simpl.
    + assert (0 <= foldr (fun i acc => TxIn.value i + acc) 0 l)
        by (specialize (IH 0%nat Hl); by rewrite take_0 in IH).
      lia.
    + specialize (IH n Hl). lia.
Qed.

Section KernelInvariants.
Variable self : OBColorDefinition.
Variable tx : Tx.
Variable in_colorstates : list colorstate.

Lemma while_loop_raises fuel o_value st e :
  while_loop fuel tx in_colorstates o_value st = Raise e -> e = IndexError.
Proof.
  revert st. induction fuel as [|fuel IH]; intros st; simpl;
    destruct (cur_value st <? o_value); try discriminate.
  destruct (inputs tx !! inp_index st) as [i|]; [|congruence].
  destruct (if colored st then _ else _) as [c| |] eqn:Hc; simpl;
    [apply IH | | discriminate].
  intros [= <-]. destruct (colored st); [|discriminate].
  unfold in_colorstate_present in Hc.
  destruct (in_colorstates !! inp_index st); congruence.
Qed.

Lemma while_loop_walked fuel o_value st st' :
  walked tx st ->
  while_loop fuel tx in_colorstates o_value st = Ok st' ->
  walked tx st'.
Proof.
  revert st. induction fuel as [|fuel IH]; intros st [Hc Hi]; simpl;
    destruct (cur_value st <? o_value); try discriminate;
    try (intros [= <-]; by split).
  destruct (inputs tx !! inp_index st) as [i|] eqn:Hl; [|discriminate].
  pose proof (lookup_lt_Some _ _ _ Hl) as Hlt.
  destruct (if colored st then _ else _) as [c| |]; simpl; try discriminate.
  apply IH. split; simpl; [|lia].
  rewrite (consumed_total_S _ _ _ Hl). lia.
Qed.

Lemma reset_walked st : walked tx st -> walked tx (reset st).
Proof. unfold reset. destruct (cur_value st =? 0); done. Qed.

Lemma genesis_override_walked is_genesis out_index st :
  walked tx st -> walked tx (genesis_override self is_genesis out_index st).
Proof. unfold genesis_override. destruct (is_genesis && _); done. Qed.

Lemma kernel_step_walked is_genesis out_index o st cs st' :
  walked tx st ->
  kernel_step self tx in_colorstates is_genesis out_index o st
    = Ok (cs, st') ->
  walked tx st' /\ TxOut.value o <= cur_value st'
  /\ cur_value st <= cur_value st'.
Proof.
  intros Hw. unfold kernel_step.
  destruct (while_loop _ _ _ _ _) as [st1| |] eqn:Hl; simpl;
    [|discriminate|discriminate].
  intros [= _ <-].
  pose proof (while_loop_exit _ _ _ _ _ _ Hl) as Hex.
  pose proof (while_loop_cur_mono _ _ _ _ _ _ Hl) as Hmono.
  apply while_loop_walked in Hl; [|by apply reset_walked].
  split; [by apply genesis_override_walked|].
  assert (cur_value (genesis_override self is_genesis out_index st1)
          = cur_value st1) as ->
    by (unfold genesis_override; by destruct (is_genesis && _)).
  assert (cur_value (reset st) = cur_value st) as Hr
    by (unfold reset; by destruct (cur_value st =? 0)).
  lia.
Qed.

Lemma for_outputs_walked is_genesis outs :
  forall out_index st acc res st',
    walked tx st ->
    for_outputs self tx in_colorstates is_genesis outs out_index st acc
      = Ok (res, st') ->
    walked tx st' /\ cur_value st <= cur_value st'
    /\ Forall (fun o => TxOut.value o <= cur_value st') outs.
Proof.
  induction outs as [|o outs IH]; intros out_index st acc res st' Hw; simpl.
  - intros [= _ <-]. split; [done|]. split; [lia|constructor].
  - destruct (kernel_step _ _ _ _ _ _ _) as [[cs st1]| |] eqn:Hs; simpl;
      [|discriminate|discriminate].
    intros Hf. apply kernel_step_walked in Hs as (Hw1 & Ho & Hm); [|done].
    apply IH in Hf as (Hw' & Hm' & Hall); [|done].
    split; [done|]. split; [lia|]. constructor; [lia|done].
Qed.

(** What the loop appends: per output, [None] or the output's value with
    the empty label. *)
Lemma for_outputs_entries is_genesis outs :
  forall out_index st acc res st',
    for_outputs self tx in_colorstates is_genesis outs out_index st acc
      = Ok (res, st') ->
    exists suffix,
      res = acc ++ suffix
      /\ Forall2 (fun o cs => cs = None \/ cs = Some (TxOut.value o, ""))
           outs suffix.
Proof.
  induction outs as [|o outs IH]; intros out_index st acc res st'; simpl.
  - intros [= <- _]. exists []. split; [by rewrite app_nil_r|constructor].
  - destruct (kernel_step _ _ _ _ _ _ _) as [[cs st1]| |] eqn:Hs; simpl;
      [|discriminate|discriminate].
    intros Hf. apply IH in Hf as (suffix & -> & Hall).
    exists (cs :: suffix). split; [by rewrite <- app_assoc|].
    constructor; [|done].
    unfold kernel_step in Hs.
    destruct (while_loop _ _ _ _ _) as [st0| |]; simpl in Hs;
      [|discriminate|discriminate].
    injection Hs as <- _. unfold out_colorstate.
    destruct (colored _); [by right | by left].
Qed.

Lemma kernel_step_raises is_genesis out_index o st e :
  kernel_step self tx in_colorstates is_genesis out_index o st = Raise e ->
  e = IndexError.
Proof.
  unfold kernel_step.
  destruct (while_loop _ _ _ _ _) as [st1| |] eqn:Hl; simpl;
    [discriminate| |discriminate].
  intros [= <-]. by apply while_loop_raises in Hl.
Qed.

Lemma for_outputs_raises is_genesis outs :
  forall out_index st acc e,
    for_outputs self tx in_colorstates is_genesis outs out_index st acc
      = Raise e ->
    e = IndexError.
Proof.
  induction outs as [|o outs IH]; intros out_index st acc e; simpl;
    [discriminate|].
  destruct (kernel_step _ _ _ _ _ _ _) as [[cs st1]| |] eqn:Hs; simpl;
    [apply IH | | discriminate].
  intros [= <-]. by apply kernel_step_raises in Hs.
Qed.
End KernelInvariants.

(** [run_kernel] returns one colorstate per output, each either absent or
    the pair of that output's own value and the empty label: the values of
    [in_colorstates] never reach the result. *)
Theorem run_kernel_entries self tx in_colorstates res :
  run_kernel self tx in_colorstates = Ok res ->
  length res = length (outputs tx)
  /\ Forall2 (fun o cs => cs = None \/ cs = Some (TxOut.value o, ""))
       (outputs tx) res.
Proof.
  unfold run_kernel, run_kernel_state.
  destruct (for_outputs _ _ _ _ _ _ _ _) as [[res' st]| |] eqn:Hf; simpl;
    [|discriminate|discriminate].
  intros [= <-]. apply for_outputs_entries in Hf as (suffix & -> & Hall).
  simpl. split; [symmetry; by eapply Forall2_length | done].
Qed.

(** The carry-over theorem's transaction as an instance. *)
Lemma run_kernel_entries_witness :
  length [Some (40, ""); Some (60, "")]
  = length (outputs (demo_tx "aa" [100] [40; 60]))
  /\ Forall2 (fun o cs => cs = None \/ cs = Some (TxOut.value o, ""))
       (outputs (demo_tx "aa" [100] [40; 60]))
       [Some (40, ""); Some (60, "")].
Proof.
  apply (run_kernel_entries demo_def (demo_tx "aa" [100] [40; 60])
           [Some (100, "")]).
  reflexivity.
Defined.

(** When [run_kernel] returns, [cur_value] is the total value of the
    inputs consumed, which were the first [inp_index] ones: it is never
    decreased by an output's value. Every output's value is at most that
    total. *)
Theorem run_kernel_cur_value_is_consumed_total self tx in_colorstates res st :
  run_kernel_state self tx in_colorstates = Ok (res, st) ->
  cur_value st = consumed_total tx (inp_index st)
  /\ (inp_index st <= length (inputs tx))%nat
  /\ Forall (fun o => TxOut.value o <= consumed_total tx (inp_index st))
       (outputs tx).
Proof.
  unfold run_kernel_state. intros Hf.
  apply for_outputs_walked in Hf as ([Hc Hi] & _ & Hall);
    [|split; [reflexivity | simpl; lia]].
  rewrite <- Hc. done.
Qed.

Lemma run_kernel_cur_value_is_consumed_total_witness :
  cur_value {| inp_index := 1; cur_value := 100; colored := true |}
  = consumed_total even_tx 1
  /\ (1 <= length (inputs even_tx))%nat
  /\ Forall (fun o => TxOut.value o <= consumed_total even_tx 1)
       (outputs even_tx).
Proof.
  apply (run_kernel_cur_value_is_consumed_total demo_def even_tx
           [Some (100, ""); None] [Some (100, ""); Some (100, "")]
           {| inp_index := 1; cur_value := 100; colored := true |}).
  reflexivity.
Defined.

(** The colour-blind walk succeeds when no output exceeds the total of the
    inputs: the loop stops, at the latest, when all inputs are consumed. *)
Lemma walk_while_covered tx o_value fuel :
  forall c,
    c.2 = consumed_total tx c.1 ->
    (c.1 <= length (inputs tx))%nat ->
    o_value <= input_total tx ->
    (length (inputs tx) - c.1 < fuel)%nat ->
    exists c',
      walk_while fuel tx o_value c = Ok c'
      /\ c'.2 = consumed_total tx c'.1
      /\ (c'.1 <= length (inputs tx))%nat.
Proof.
  induction fuel as [|fuel IH]; intros [n v] Hc Hn Ho Hf; [lia|].
  cbn [walk_while fst snd] in *.
  destruct (v <? o_value) eqn:E; [|by exists (n, v)].
  apply Z.ltb_lt in E.
  destruct (inputs tx !! n) as [i|] eqn:Hl.
  - pose proof (lookup_lt_Some _ _ _ Hl) as Hlt.
    apply IH; cbn [fst snd]; [|lia|done|lia].
    rewrite (consumed_total_S _ _ _ Hl). lia.
  - apply lookup_ge_None in Hl.
    rewrite consumed_total_all in Hc by done. lia.
Qed.

Lemma walk_for_covered tx outs :
  forall c,
    c.2 = consumed_total tx c.1 ->
    (c.1 <= length (inputs tx))%nat ->
    Forall (fun o => TxOut.value o <= input_total tx) outs ->
    exists c', walk_for tx outs c = Ok c'.
Proof.
  induction outs as [|o outs IH]; intros c Hc Hn Hall;
    cbn [walk_for]; [by exists c|].
  apply Forall_cons in Hall as [Ho Hall].
  destruct (walk_while_covered tx (TxOut.value o) (while_fuel tx) c)
    as (c1 & -> & Hc1 & Hn1); [done..|unfold while_fuel; lia|].
  cbn [mbind result_bind]. by apply IH.
Qed.

(** With input values that are not negative and a colorstate entry per
    input, [run_kernel] returns exactly when no single output exceeds the
    total of all inputs, and raises [IndexError] otherwise. The sum of the
    outputs plays no part. *)
Theorem run_kernel_returns_iff_each_output_covered self tx in_colorstates :
  Forall (fun i => 0 <= TxIn.value i) (inputs tx) ->
  length in_colorstates = length (inputs tx) ->
  (Forall (fun o => TxOut.value o <= input_total tx) (outputs tx) ->
   exists res, run_kernel self tx in_colorstates = Ok res)
  /\ (Exists (fun o => input_total tx < TxOut.value o) (outputs tx) ->
      run_kernel self tx in_colorstates = Raise IndexError).
Proof.
  intros Hnn Hlen. split.
  - intros Hall.
    destruct (walk_for_covered tx (outputs tx) (0%nat, 0)) as [c Hw];
      [reflexivity | simpl; lia | done |].
    pose proof (run_kernel_cursor self tx in_colorstates Hlen) as Hc.
    unfold walk in Hc. rewrite Hw in Hc. unfold run_kernel.
    destruct (run_kernel_state _ _ _) as [[res st]| |]; simpl in *;
      [by exists res | discriminate | discriminate].
  - intros Hex. unfold run_kernel.
    destruct (run_kernel_state self tx in_colorstates) as [[res st]|e|]
      eqn:Hr; simpl.
    + exfalso. unfold run_kernel_state in Hr.
      apply for_outputs_walked in Hr as ([Hc _] & _ & Hall);
        [|split; [reflexivity | simpl; lia]].
      apply Exists_exists in Hex as (o & Ho & Hgt).
      rewrite Forall_forall in Hall. specialize (Hall o Ho).
      pose proof (consumed_total_le tx (inp_index st) Hnn). lia.
    + unfold run_kernel_state in Hr. apply for_outputs_raises in Hr.
      by subst.
    + exfalso. unfold run_kernel_state in Hr.
      by apply for_outputs_fuel_enough in Hr.
Qed.

Lemma run_kernel_returns_iff_each_output_covered_witness :
  (exists res, run_kernel demo_def short_tx [None] = Ok res)
  /\ run_kernel demo_def (demo_tx "aa" [100] [100; 101]) [None]
     = Raise IndexError.
Proof.
  split.
  - apply (run_kernel_returns_iff_each_output_covered demo_def short_tx
             [None]).
    + vm_compute; repeat (constructor; [discriminate|]); constructor.
    + reflexivity.
    + vm_compute; repeat (constructor; [discriminate|]); constructor.
  - apply (run_kernel_returns_iff_each_output_covered demo_def
             (demo_tx "aa" [100] [100; 101]) [None]).
    + vm_compute; repeat (constructor; [discriminate|]); constructor.
    + reflexivity.
    + apply Exists_cons_tl, Exists_cons_hd. reflexivity.
Defined.

Section KernelColour.
Variable self : OBColorDefinition.
Variable tx : Tx.

(** Inside the inner loop an uncoloured segment stays uncoloured. *)
Lemma while_loop_stays_uncolored (in_colorstates : list colorstate) fuel o_value st st' :
  colored st = false ->
  while_loop fuel tx in_colorstates o_value st = Ok st' ->
  colored st' = false.
Proof.
  revert st. induction fuel as [|fuel IH]; intros st Hc; simpl;
    destruct (cur_value st <? o_value); try discriminate;
    try (intros [= <-]; done).
  destruct (inputs tx !! inp_index st) as [i|]; [|discriminate].
  rewrite Hc. simpl. by apply IH.
Qed.

(** With every input coloured, a coloured segment stays coloured. *)
Lemma while_loop_stays_colored (in_colorstates : list colorstate) fuel o_value st st' :
  Forall (fun cs => cs <> None) in_colorstates ->
  colored st = true ->
  while_loop fuel tx in_colorstates o_value st = Ok st' ->
  colored st' = true.
Proof.
  intros Hall. revert st. induction fuel as [|fuel IH]; intros st Hc; simpl;
    destruct (cur_value st <? o_value); try discriminate;
    try (intros [= <-]; done).
  destruct (inputs tx !! inp_index st) as [i|]; [|discriminate].
  rewrite Hc. unfold in_colorstate_present.
  destruct (in_colorstates !! inp_index st) as [cs|] eqn:Hl;
    cbn [mbind result_bind]; [|discriminate].
  apply IH. simpl. apply bool_decide_eq_true.
  rewrite Forall_forall in Hall. apply Hall.
  by eapply list_elem_of_lookup_2.
Qed.

Lemma for_outputs_all_colored (in_colorstates : list colorstate)
    is_genesis outs :
  Forall (fun cs => cs <> None) in_colorstates ->
  forall out_index st acc res st',
    colored st = true \/ cur_value st = 0 ->
    for_outputs self tx in_colorstates is_genesis outs out_index st acc
      = Ok (res, st') ->
    res = acc ++ map (fun o => Some (TxOut.value o, "")) outs.
Proof.
  intros Hall.
  induction outs as [|o outs IH]; intros out_index st acc res st' Hst; simpl.
  - intros [= <- _]. by rewrite app_nil_r.
  - unfold kernel_step.
    destruct (while_loop _ _ _ _ _) as [st1| |] eqn:Hw; simpl;
      [|discriminate|discriminate].
    apply while_loop_stays_colored in Hw; [|done|].
    2:{ unfold reset. destruct (cur_value st =? 0) eqn:E; [done|].
        destruct Hst as [?|?]; [done|]. apply Z.eqb_neq in E. lia. }
    assert (colored (genesis_override self is_genesis out_index st1) = true)
      as Hg by (unfold genesis_override; by destruct (is_genesis && _)).
    intros Hf. apply IH in Hf; [|by left]. rewrite Hf.
    unfold out_colorstate. rewrite Hg. by rewrite <- app_assoc.
Qed.

Lemma for_outputs_all_uncolored in_colorstates outs :
  forall out_index st acc res st',
    colored st = false -> 0 < cur_value st ->
    for_outputs self tx in_colorstates false outs out_index st acc
      = Ok (res, st') ->
    res = acc ++ map (fun _ => None) outs.
Proof.
  induction outs as [|o outs IH]; intros out_index st acc res st' Hc Hpos;
    simpl.
  - intros [= <- _]. by rewrite app_nil_r.
  - unfold kernel_step, genesis_override. cbn [andb].
    assert (reset st = st) as ->
      by (unfold reset; destruct (cur_value st =? 0) eqn:E; [|done];
          apply Z.eqb_eq in E; lia).
    destruct (while_loop _ _ _ _ _) as [st1| |] eqn:Hw; simpl;
      [|discriminate|discriminate].
    pose proof (while_loop_cur_mono _ _ _ _ _ _ Hw) as Hm.
    apply while_loop_stays_uncolored in Hw; [|done].
    intros Hf. apply IH in Hf; [|done|lia]. rewrite Hf.
    unfold out_colorstate. rewrite Hw. by rewrite <- app_assoc.
Qed.

Lemma for_outputs_nothing_to_cover in_colorstates is_genesis outs :
  Forall (fun o => TxOut.value o <= 0) outs ->
  forall out_index st acc,
    cur_value st = 0 ->
    exists st',
      for_outputs self tx in_colorstates is_genesis outs out_index st acc
        = Ok (acc ++ map (fun o => Some (TxOut.value o, "")) outs, st')
      /\ cursor st' = cursor st.
Proof.
  induction outs as [|o outs IH]; intros Hall out_index st acc Hc; simpl.
  - exists st. by rewrite app_nil_r.
  - apply Forall_cons in Hall as [Ho Hall].
    unfold kernel_step, reset. rewrite Hc. cbn [Z.eqb].
    rewrite while_loop_covered by (simpl; lia). cbn [mbind result_bind].
    set (st1 := genesis_override self is_genesis out_index _).
    assert (colored st1 = true /\ cursor st1 = cursor st) as [Hcol Hcur].
    { unfold st1, genesis_override, cursor.
      destruct (is_genesis && _); simpl; by rewrite Hc. }
    destruct (IH Hall (S out_index) st1
                (acc ++ [out_colorstate o st1])) as (st' & Hf & Hcur').
    { unfold cursor in Hcur. injection Hcur as _ ->. exact Hc. }
    exists st'. cbn [fst snd]. rewrite Hf. split; [|congruence].
    unfold out_colorstate. rewrite Hcol. by rewrite <- app_assoc.
Qed.

(** The presence test is all the loop takes from [in_colorstates]. *)
Lemma while_loop_presence_only (in_colorstates in_colorstates' : list colorstate)
    fuel o_value :
  Forall2 (fun a b => a = None <-> b = None) in_colorstates in_colorstates' ->
  forall st,
    while_loop fuel tx in_colorstates o_value st
    = while_loop fuel tx in_colorstates' o_value st.
Proof.
  intros Hp. induction fuel as [|fuel IH]; intros st; cbn [while_loop];
    [done|].
  destruct (cur_value st <? o_value); [|done].
  destruct (inputs tx !! inp_index st) as [i|]; [|done].
  assert (in_colorstate_present in_colorstates (inp_index st)
          = in_colorstate_present in_colorstates' (inp_index st)) as Hsame.
  { unfold in_colorstate_present.
    destruct (in_colorstates !! inp_index st) as [a|] eqn:Ha;
      destruct (in_colorstates' !! inp_index st) as [b|] eqn:Hb.
    - pose proof (Forall2_lookup_lr _ _ _ _ _ _ Hp Ha Hb) as Hab.
      f_equal. apply bool_decide_ext. destruct Hab as [H1 H2].
      split; intros Hn Heq; apply Hn; auto.
    - apply lookup_lt_Some in Ha. apply lookup_ge_None in Hb.
      apply Forall2_length in Hp. unfold colorstate in *. lia.
    - apply lookup_lt_Some in Hb. apply lookup_ge_None in Ha.
      apply Forall2_length in Hp. unfold colorstate in *. lia.
    - reflexivity. }
  destruct (colored st).
  - rewrite Hsame.
    destruct (in_colorstate_present in_colorstates' (inp_index st));
      cbn [mbind result_bind]; [apply IH | done | done].
  - cbn [mbind result_bind]. apply IH.
Qed.

Lemma for_outputs_presence_only in_colorstates in_colorstates' is_genesis
    outs :
  Forall2 (fun a b => a = None <-> b = None) in_colorstates in_colorstates' ->
  forall out_index st acc,
    for_outputs self tx in_colorstates is_genesis outs out_index st acc
    = for_outputs self tx in_colorstates' is_genesis outs out_index st acc.
Proof.
  intros Hp. induction outs as [|o outs IH]; intros out_index st acc; simpl;
    [done|].
  unfold kernel_step.
  rewrite (while_loop_presence_only _ _ _ _ Hp).
  destruct (while_loop _ _ _ _ _); simpl; [apply IH | done | done].
Qed.
End KernelColour.

(** When every input is coloured, every output of a completed run is
    coloured with its own value, for any transaction, genesis or not. *)
Theorem all_inputs_colored_all_outputs_colored self tx
    (in_colorstates : list colorstate) res :
  Forall (fun cs => cs <> None) in_colorstates ->
  run_kernel self tx in_colorstates = Ok res ->
  res = map (fun o => Some (TxOut.value o, "")) (outputs tx).
Proof.
  intros Hall. unfold run_kernel, run_kernel_state.
  destruct (for_outputs _ _ _ _ _ _ _ _) as [[res' st]| |] eqn:Hf; simpl;
    [|discriminate|discriminate].
  intros [= <-].
  apply for_outputs_all_colored in Hf; [done|done|by right].
Qed.

Lemma all_inputs_colored_all_outputs_colored_witness :
  [Some (100, ""); Some (100, "")]
  = map (fun o => Some (TxOut.value o, "")) (outputs short_tx).
Proof.
  apply (all_inputs_colored_all_outputs_colored demo_def short_tx
           [Some (100, "")]).
  - repeat constructor. discriminate.
  - reflexivity.
Defined.

(** In a transaction other than the genesis one, when the first output has
    a positive value and the first input is uncoloured, no output of a
    completed run is coloured: colour that is lost is not regained. *)
Theorem first_input_uncolored_no_output_colored self tx in_colorstates o outs
    res :
  hash tx <> txhash (genesis self) ->
  outputs tx = o :: outs ->
  0 < TxOut.value o ->
  in_colorstates !! 0%nat = Some None ->
  run_kernel self tx in_colorstates = Ok res ->
  res = map (fun _ => None) (outputs tx).
Proof.
  intros Hh Ho Hpos Hin. apply String.eqb_neq in Hh.
  unfold run_kernel, run_kernel_state. rewrite Hh, Ho.
  cbn [for_outputs]. unfold kernel_step at 1, genesis_override.
  cbn [andb]. change (reset init_kstate)
    with {| inp_index := 0; cur_value := 0; colored := true |}.
  unfold while_fuel. cbn [while_loop cur_value inp_index colored].
  rewrite (proj2 (Z.ltb_lt 0 (TxOut.value o)) Hpos).
  destruct (inputs tx !! 0%nat) as [i|]; [|discriminate].
  unfold in_colorstate_present. rewrite Hin. cbn [mbind result_bind].
  destruct (while_loop _ _ _ _ _) as [st1| |] eqn:Hw;
    cbn [mbind result_bind fmap result_fmap fst snd];
    [|discriminate|discriminate].
  pose proof (while_loop_exit _ _ _ _ _ _ Hw) as Hex.
  apply while_loop_stays_uncolored in Hw; [|reflexivity].
  destruct (for_outputs _ _ _ _ _ _ _ _) as [[res' st]| |] eqn:Hf;
    cbn [mbind result_bind fmap result_fmap fst snd];
    [|discriminate|discriminate].
  intros [= <-].
  apply for_outputs_all_uncolored in Hf; [|done|lia].
  rewrite Hf. unfold out_colorstate. rewrite Hw. reflexivity.
Qed.

Lemma first_input_uncolored_no_output_colored_witness :
  ([None; None; None] : list colorstate)
  = map (fun _ => None) (outputs (demo_tx "aa" [30; 70] [20; 10; 60])).
Proof.
  apply (first_input_uncolored_no_output_colored demo_def
           (demo_tx "aa" [30; 70] [20; 10; 60])
           [None; Some (70, "")] (TxOut.mk 20 "")
           [TxOut.mk 10 ""; TxOut.mk 60 ""]);
    [discriminate | reflexivity | reflexivity | reflexivity | reflexivity].
Defined.

(** Only the presence of each input colorstate matters: two lists that are
    present at the same positions give the same outcome, whatever values
    and labels they hold. *)
Theorem run_kernel_reads_presence_only self tx in_colorstates
    in_colorstates' :
  Forall2 (fun a b => a = None <-> b = None) in_colorstates in_colorstates' ->
  run_kernel self tx in_colorstates = run_kernel self tx in_colorstates'.
Proof.
  intros Hp. unfold run_kernel, run_kernel_state.
  by rewrite (for_outputs_presence_only self tx _ _ _ _ Hp).
Qed.

Lemma run_kernel_reads_presence_only_witness :
  run_kernel demo_def even_tx [Some (100, ""); None]
  = run_kernel demo_def even_tx [Some (1, "other"); None].
Proof.
  apply (run_kernel_reads_presence_only demo_def even_tx
           [Some (100, ""); None] [Some (1, "other"); None]).
  repeat constructor; discriminate.
Defined.

(** When no output has a positive value, [run_kernel] consumes no input
    and marks every output coloured, in any transaction and for any
    [in_colorstates], even with no inputs at all. *)
Theorem no_positive_output_all_colored self tx in_colorstates :
  Forall (fun o => TxOut.value o <= 0) (outputs tx) ->
  exists st,
    run_kernel_state self tx in_colorstates
    = Ok (map (fun o => Some (TxOut.value o, "")) (outputs tx), st)
    /\ cursor st = (0%nat, 0).
Proof.
  intros Hall. unfold run_kernel_state.
  destruct (for_outputs_nothing_to_cover self tx in_colorstates
              (String.eqb (hash tx) (txhash (genesis self))) (outputs tx)
              Hall 0%nat init_kstate []) as (st & Hf & Hc); [reflexivity|].
  exists st. split; [exact Hf | exact Hc].
Qed.

Lemma no_positive_output_all_colored_witness :
  exists st,
    run_kernel_state demo_def (demo_tx "aa" [] [0; 0]) []
    = Ok (map (fun o => Some (TxOut.value o, ""))
            (outputs (demo_tx "aa" [] [0; 0])), st)
    /\ cursor st = (0%nat, 0).
Proof.
  apply (no_positive_output_all_colored demo_def (demo_tx "aa" [] [0; 0]) []).
  repeat constructor; discriminate.
Defined.

(** With an empty [in_colorstates], a transaction whose first output has a
    positive value always raises [IndexError]: from [tx.inputs] if there is
    no input, from [in_colorstates] otherwise. *)
Theorem run_kernel_without_colorstates_raises self tx o outs :
  outputs tx = o :: outs ->
  0 < TxOut.value o ->
  run_kernel self tx [] = Raise IndexError.
Proof.
  intros Ho Hpos. unfold run_kernel, run_kernel_state. rewrite Ho.
  cbn [for_outputs]. unfold kernel_step at 1.
  change (reset init_kstate)
    with {| inp_index := 0; cur_value := 0; colored := true |}.
  unfold while_fuel. cbn [while_loop cur_value inp_index colored].
  rewrite (proj2 (Z.ltb_lt 0 (TxOut.value o)) Hpos).
  destruct (inputs tx !! 0%nat) as [i|]; reflexivity.
Qed.

Lemma run_kernel_without_colorstates_raises_witness :
  run_kernel demo_def short_tx [] = Raise IndexError.
Proof.
  apply (run_kernel_without_colorstates_raises demo_def short_tx
           (TxOut.mk 100 "") [TxOut.mk 100 ""]); reflexivity.
Defined.

(** * Properties of the colour descriptor code *)

Lemma split_colon_length s :
  length (split_colon s) = S (count_colons s).
Proof.
  induction s as [|c s IH]; [reflexivity|]. cbn [split_colon count_colons].
  destruct (Ascii.eqb c ":"); cbn [length]; [by rewrite IH|].
  destruct (split_colon s) as [|piece pieces]; simpl in *; lia.
Qed.

Lemma split_colon_free s : colon_free s = true -> split_colon s = [s].
Proof.
  induction s as [|c s IH]; [reflexivity|]. cbn [split_colon colon_free].
  destruct (Ascii.eqb c ":"); [discriminate|]. cbn [negb andb].
  intros H. by rewrite IH.
Qed.

Lemma split_colon_app a b :
  colon_free a = true ->
  split_colon (a ++ String ":" b) = a :: split_colon b.
Proof.
  induction a as [|c a IH]; [reflexivity|].
  change (String c a ++ String ":" b)%string
    with (String c (a ++ String ":" b)%string).
  cbn [split_colon colon_free].
  destruct (Ascii.eqb c ":"); [discriminate|]. cbn [negb andb].
  intros H. by rewrite IH.
Qed.

Lemma split_colon_join4 a b c d :
  colon_free a = true -> colon_free b = true -> colon_free c = true ->
  colon_free d = true ->
  split_colon (join_colon [a; b; c; d]) = [a; b; c; d].
Proof.
  intros Ha Hb Hc Hd.
  change (join_colon [a; b; c; d])
    with (a ++ String ":" (b ++ String ":" (c ++ String ":" d)))%string.
  rewrite !split_colon_app by done. by rewrite split_colon_free.
Qed.

(** Parsing a well-formed descriptor: for colon-free fields whose numbers
    [int] reads, [OBColorDefinition.from_color_desc] on
    ["obc:<txhash>:<outindex>:<height>"] returns the definition with that
    genesis, the given color id, and [starting_height] equal to the
    height. *)
Theorem ob_from_color_desc_parses py_int color_id' txhash' outindex_s
    height_s outindex' height' :
  colon_free txhash' = true ->
  colon_free outindex_s = true ->
  colon_free height_s = true ->
  py_int outindex_s = Some outindex' ->
  py_int height_s = Some height' ->
  exists cd,
    ob_from_color_desc py_int color_id'
      (join_colon ["obc"; txhash'; outindex_s; height_s]) = inr cd
    /\ color_id cd = color_id'
    /\ genesis cd = {| txhash := txhash'; outindex := outindex';
                       height := height' |}
    /\ starting_height cd = height'.
Proof.
  intros Ht Ho Hh Hpo Hph. unfold ob_from_color_desc.
  rewrite split_colon_join4 by done. cbn [String.eqb negb].
  change (String.eqb "obc" class_code) with true. cbn [negb].
  rewrite Hph, Hpo. eexists. split; [reflexivity|]. by repeat split.
Qed.

Lemma ob_from_color_desc_parses_witness :
  exists cd,
    ob_from_color_desc demo_int 7 (join_colon ["obc"; "b1a7"; "1"; "46442"])
    = inr cd
    /\ color_id cd = 7
    /\ genesis cd = {| txhash := "b1a7"; outindex := 1; height := 46442 |}
    /\ starting_height cd = 46442.
Proof.
  apply (ob_from_color_desc_parses demo_int 7 "b1a7" "1" "46442" 1 46442);
    reflexivity.
Defined.

(** A descriptor that does not have exactly three colons raises
    [ValueError] from the tuple unpacking, whatever its code is: the code is
    only looked at afterwards. *)
Theorem ob_from_color_desc_field_count py_int color_id' color_desc :
  count_colons color_desc <> 3%nat ->
  ob_from_color_desc py_int color_id' color_desc = inl ValueError.
Proof.
  intros Hn. unfold ob_from_color_desc.
  pose proof (split_colon_length color_desc) as Hl.
  destruct (split_colon color_desc) as [|a [|b [|c [|d [|e l]]]]];
    simpl in Hl; try reflexivity; lia.
Qed.

Lemma ob_from_color_desc_field_count_witness :
  ob_from_color_desc demo_int 7 "xyz:b1a7:1" = inl ValueError.
Proof.
  apply (ob_from_color_desc_field_count demo_int 7 "xyz:b1a7:1").
  vm_compute. discriminate.
Defined.

(** A four-field descriptor whose code is not ["obc"] raises the
    wrong-colour-code exception before [int] is applied to any field. *)
Theorem ob_from_color_desc_wrong_code py_int color_id' code a b c :
  colon_free code = true -> colon_free a = true -> colon_free b = true ->
  colon_free c = true ->
  code <> class_code ->
  ob_from_color_desc py_int color_id' (join_colon [code; a; b; c])
  = inl (Other (Exception "wrong color code in from_color_desc")).
Proof.
  intros Hcode Ha Hb Hc Hne. unfold ob_from_color_desc.
  rewrite split_colon_join4 by done.
  apply String.eqb_neq in Hne. by rewrite Hne.
Qed.

Lemma ob_from_color_desc_wrong_code_witness :
  ob_from_color_desc demo_int 7
    (join_colon ["epobc"; "b1a7"; "one"; "high"])
  = inl (Other (Exception "wrong color code in from_color_desc")).
Proof.
  apply (ob_from_color_desc_wrong_code demo_int 7 "epobc" "b1a7" "one"
           "high"); [reflexivity.. | discriminate].
Defined.

(** Dispatch through the registry of the loaded module: a descriptor whose
    first field is ["obc"] is parsed by [OBColorDefinition.from_color_desc],
    any other first field raises [KeyError] with that field; so the
    wrong-colour-code exception is never raised through the dispatch. *)
Theorem from_color_desc_dispatch py_int color_id' color_desc :
  exists code,
    get_color_desc_code color_desc = inr code
    /\ (code = class_code ->
        from_color_desc py_int cd_classes color_id' color_desc
        = ob_from_color_desc py_int color_id' color_desc)
    /\ (code <> class_code ->
        from_color_desc py_int cd_classes color_id' color_desc
        = inl (KeyError code))
    /\ from_color_desc py_int cd_classes color_id' color_desc
       <> inl (Other (Exception "wrong color code in from_color_desc")).
Proof.
  unfold from_color_desc, get_color_desc_code.
  pose proof (split_colon_length color_desc) as Hl.
  destruct (split_colon color_desc) as [|code pieces] eqn:Hs;
    [simpl in Hl; lia|].
  exists code. split; [reflexivity|].
  unfold cd_classes, register_color_def_class.
  destruct (decide (code = class_code)) as [->|Hne].
  - rewrite lookup_insert_eq. split; [done|]. split; [done|].
    cbn [class_from_color_desc]. unfold ob_from_color_desc. rewrite Hs.
    destruct pieces as [|a [|b [|c [|d l]]]]; try discriminate.
    rewrite String.eqb_refl. cbn [negb].
    destruct (py_int c); [|discriminate].
    destruct (py_int b); discriminate.
  - rewrite lookup_insert_ne by done. rewrite lookup_empty.
    split; [done|]. split; [done|]. discriminate.
Qed.

(** The dispatch at a descriptor whose first field is ["epobc"]. *)
Lemma from_color_desc_dispatch_witness :
  from_color_desc demo_int cd_classes 7 "epobc:b1a7:1:46442"
  = inl (KeyError "epobc").
Proof.
  destruct (from_color_desc_dispatch demo_int 7 "epobc:b1a7:1:46442")
    as (code & Hcode & _ & Hother & _).
  vm_compute in Hcode. injection Hcode as <-.
  apply Hother. discriminate.
Defined.

(** * Further properties of [OBColorDefinition.compose_tx_spec] *)

Section ComposerMore.
Variable self : OBColorDefinition.

Lemma partition_targets_supported targets :
  forall colored_targets uncolored_targets,
    Forall (fun t => unsupported self t = false) targets ->
    partition_targets self targets colored_targets uncolored_targets
    = Ok (colored_targets ++ List.filter (own_target self) targets,
          uncolored_targets ++ List.filter (zero_target self) targets).
Proof.
  induction targets as [|t targets IH]; intros ct ut Hall.
  - simpl. by rewrite !app_nil_r.
  - apply Forall_cons in Hall as [Ht Hall]. cbn [partition_targets].
    unfold unsupported in Ht. cbn [List.filter]. unfold zero_target, own_target in *.
    destruct (py_eq_int (item1 t) (color_id self)) eqn:E1; cbn [negb andb].
    + rewrite IH by done. by rewrite <- app_assoc.
    + destruct (py_eq_int (item1 t) 0) eqn:E0; [|discriminate].
      rewrite IH by done. by rewrite <- app_assoc.
Qed.

(** [sum] returns an integer or raises [TypeError]; it raises as soon as
    one summand is a string. *)
Lemma py_sum_from_outcome l :
  forall acc,
    (exists n, py_sum_from acc l = Ok n)
    \/ py_sum_from acc l = Raise TypeError.
Proof.
  induction l as [|v l IH]; intros acc; [left; by eexists|].
  destruct v as [n|s]; [apply IH | by right].
Qed.

Lemma py_sum_from_string l :
  forall acc,
    Exists (fun v => exists s, v = PStr s) l ->
    py_sum_from acc l = Raise TypeError.
Proof.
  induction l as [|v l IH]; intros acc Hex; [by apply Exists_nil in Hex|].
  destruct v as [n|s]; [|reflexivity].
  apply Exists_cons in Hex as [[s Hs]|Hex]; [discriminate|]. by apply IH.
Qed.
End ComposerMore.

(** The partition of the targets: it raises when some target has an
    unsupported color id; otherwise the coloured bucket holds the targets
    of [self.color_id] and the uncoloured bucket the remaining targets of
    color id 0, each in the order given. A definition whose own color id is
    0 therefore takes every target and leaves the uncoloured bucket
    empty. *)
Theorem partition_targets_buckets self targets :
  partition_targets self targets [] []
  = if existsb (unsupported self) targets
    then Raise (Exception "ColorDef cannot work with this color_id")
    else Ok (List.filter (own_target self) targets,
             List.filter (zero_target self) targets).
Proof.
  destruct (existsb (unsupported self) targets) eqn:E.
  - apply partition_targets_unsupported.
    apply existsb_exists in E as (t & Hin & Ht).
    apply Exists_exists. exists t. split; [by apply list_elem_of_In|done].
  - rewrite partition_targets_supported; [reflexivity|].
    apply Forall_forall. intros t Hin.
    destruct (unsupported self t) eqn:Ht; [|done].
    assert (existsb (unsupported self) targets = true) as Hc
      by (apply existsb_exists; exists t; split;
          [by apply list_elem_of_In | done]).
    congruence.
Qed.

(** When every target is supported and some target carries a string at
    [target[2]], the position the sums read, [compose_tx_spec] raises
    [TypeError] with [get_targets] as its only call: no coin is selected. *)
Theorem string_amount_raises_before_selection {W coin}
    (op_tx_spec : OperationalTxSpec W coin) self w targets w1 :
  get_targets op_tx_spec w = (Ok targets, w1) ->
  Forall (fun t => unsupported self t = false) targets ->
  Exists (fun t => exists s, item2 t = PStr s) targets ->
  run_compose op_tx_spec self w = (Raise TypeError, (w1, [CallGetTargets])).
Proof.
  intros Hgt Hsup Hex. unfold run_compose, compose_tx_spec.
  step_call Hgt.
  erewrite m_bind_ok
    by (unfold m_lift; rewrite partition_targets_supported by done;
        reflexivity).
  cbv beta iota. cbn [app].
  set (ct := List.filter _ targets). set (ut := List.filter _ targets).
  assert (Exists (fun v => exists s, v = PStr s) (map item2 ct)
          \/ Exists (fun v => exists s, v = PStr s) (map item2 ut)) as Hs.
  { apply Exists_exists in Hex as (t & Hin & s & Hs).
    rewrite Forall_forall in Hsup. specialize (Hsup t Hin).
    unfold unsupported in Hsup.
    destruct (py_eq_int (item1 t) (color_id self)) eqn:E1.
    - left. apply Exists_exists. exists (PStr s). split; [|by eexists].
      rewrite <- Hs. apply list_elem_of_fmap_2. apply list_elem_of_In.
      apply filter_In. split; [by apply list_elem_of_In|exact E1].
    - right. apply Exists_exists. exists (PStr s). split; [|by eexists].
      rewrite <- Hs. apply list_elem_of_fmap_2. apply list_elem_of_In.
      apply filter_In. split; [by apply list_elem_of_In|].
      unfold zero_target, own_target. rewrite E1. cbn [negb andb] in *.
      by destruct (py_eq_int (item1 t) 0). }
  destruct (py_sum_from_outcome (map item2 ct) 0) as [[n Hn]|Hr].
  - destruct Hs as [Hs|Hs];
      [apply (py_sum_from_string _ 0) in Hs; unfold py_sum in *; congruence|].
    erewrite m_bind_ok by (unfold m_lift, py_sum; rewrite Hn; reflexivity).
    cbv beta. apply m_bind_raise. unfold m_lift, py_sum.
    by rewrite (py_sum_from_string _ 0 Hs).
  - apply m_bind_raise. unfold m_lift, py_sum. by rewrite Hr.
Qed.

Lemma string_amount_raises_before_selection_witness :
  run_compose
    (demo_ops [(PStr "a", PInt 7, PInt 10); (PInt 20, PInt 0, PStr "b")] 10)
    demo_def 0%nat
  = (Raise TypeError, (0%nat, [CallGetTargets])).
Proof.
  apply (string_amount_raises_before_selection
           (demo_ops [(PStr "a", PInt 7, PInt 10);
                      (PInt 20, PInt 0, PStr "b")] 10)
           demo_def 0%nat
           [(PStr "a", PInt 7, PInt 10); (PInt 20, PInt 0, PStr "b")]
           0%nat).
  - reflexivity.
  - repeat constructor.
  - apply Exists_cons_tl, Exists_cons_hd. by exists "b".
Defined.

(** The one way [compose_tx_spec] returns: with no target at all, when both
    selections and the fee return and neither bucket has positive change.
    The draft then has the coins of the two selections, in that order, as
    inputs and no output; the selections ask for 0 and for the fee. *)
Theorem compose_tx_spec_without_targets {W coin}
    (op_tx_spec : OperationalTxSpec W coin) self w w1 colored_inputs
    colored_total w2 fee w3 uncolored_inputs uncolored_total w4 :
  get_targets op_tx_spec w = (Ok [], w1) ->
  select_coins op_tx_spec (color_id self) 0 w1
    = (Ok (colored_inputs, colored_total), w2) ->
  get_required_fee op_tx_spec 750 w2 = (Ok fee, w3) ->
  select_coins op_tx_spec (color_id self) fee w3
    = (Ok (uncolored_inputs, uncolored_total), w4) ->
  colored_total <= 0 ->
  uncolored_total <= fee ->
  run_compose op_tx_spec self w
  = (Ok (ComposedTxSpec.mk
           (map ComposedTxSpec.mkTxIn (colored_inputs ++ uncolored_inputs))
           []),
     (w4, [CallGetTargets; CallSelectCoins (color_id self) 0;
           CallGetRequiredFee 750; CallSelectCoins (color_id self) fee])).
Proof.
  intros Hgt Hs1 Hfee Hs2 Hc Hu. unfold run_compose, compose_tx_spec.
  step_call Hgt. cbn [partition_targets map].
  erewrite m_bind_ok by reflexivity. cbv beta iota.
  erewrite m_bind_ok by reflexivity. cbv beta.
  erewrite m_bind_ok by reflexivity. cbv beta.
  step_call Hs1. step_call Hfee.
  erewrite m_bind_ok by (apply m_call_run; exact Hs2).
  cbv beta iota. cbn [app]. unfold append_change.
  replace (colored_total - 0 >? 0) with false
    by (symmetry; rewrite Z.gtb_ltb; apply Z.ltb_ge; lia).
  replace (uncolored_total - 0 - fee >? 0) with false
    by (symmetry; rewrite Z.gtb_ltb; apply Z.ltb_ge; lia).
  reflexivity.
Qed.

Lemma compose_tx_spec_without_targets_witness :
  run_compose (demo_ops [] 0) demo_def 0%nat
  = (Ok (ComposedTxSpec.mk
           (map ComposedTxSpec.mkTxIn
              ([("coin"%string, 0)] ++ [("coin"%string, 750)])) []),
     (2%nat, [CallGetTargets; CallSelectCoins 7 0; CallGetRequiredFee 750;
              CallSelectCoins 7 750])).
Proof.
  apply (compose_tx_spec_without_targets (demo_ops [] 0) demo_def 0%nat
           0%nat [("coin"%string, 0)] 0 1%nat 750 1%nat
           [("coin"%string, 750)] 750 2%nat);
    (reflexivity || discriminate).
Defined.

(** The buckets hold every target the partition was given. *)
Lemma partition_targets_length self targets :
  forall colored_targets uncolored_targets ct ut,
    partition_targets self targets colored_targets uncolored_targets
      = Ok (ct, ut) ->
    (length ct + length ut
     = length colored_targets + length uncolored_targets + length targets)%nat.
Proof.
  induction targets as [|t targets IH]; intros ct0 ut0 ct ut;
    cbn [partition_targets].
  - intros [= <- <-]. simpl. lia.
  - destruct (py_eq_int (item1 t) (color_id self)).
    + intros H. apply IH in H. rewrite length_app in H. simpl in *. lia.
    + destruct (py_eq_int (item1 t) 0); [|discriminate].
      intros H. apply IH in H. rewrite length_app in H. simpl in *. lia.
Qed.

(** Appending change never shortens a bucket. *)
Lemma append_change_grows {W coin} (op_tx_spec : OperationalTxSpec W coin)
    change c targets s l s' :
  append_change op_tx_spec change c targets s = (Ok l, s') ->
  (length targets <= length l)%nat.
Proof.
  unfold append_change, m_bind, m_call, m_ret.
  destruct (change >? 0).
  - destruct (get_change_addr op_tx_spec c s.1) as [[addr| |] w'];
      try discriminate.
    intros [= <- _]. rewrite length_app. lia.
  - intros [= <- _]. lia.
Qed.

(** [compose_tx_spec] never returns a draft that has an output: when it
    returns at all, [get_targets] gave no target and the draft's list of
    outputs is empty. Any run that has a target, or change to pay, ends in
    an exception. *)
Theorem compose_tx_spec_returns_only_without_targets {W coin}
    (op_tx_spec : OperationalTxSpec W coin) self w d s :
  run_compose op_tx_spec self w = (Ok d, s) ->
  ComposedTxSpec.txouts d = []
  /\ exists w1, get_targets op_tx_spec w = (Ok [], w1).
Proof.
  intros H. split.
  { exact (compose_tx_spec_returns_no_output op_tx_spec self (w, []) d s H). }
  unfold run_compose, compose_tx_spec, m_bind, m_lift, m_ret in H.
  unfold m_call at 1 in H. cbn [fst snd] in H.
  destruct (get_targets op_tx_spec w) as [[targets| |] w1];
    try discriminate.
  repeat match type of H with
         | context [match ?x with _ => _ end] =>
             destruct x eqn:?; try discriminate
         end.
  repeat match goal with
         | Hc : comprehension _ _ = Ok _ |- _ =>
             apply comprehension_make_txout in Hc as [Hc _];
             apply app_eq_nil in Hc as [? ?]
         | Hp : partition_targets _ _ _ _ = Ok _ |- _ =>
             apply partition_targets_length in Hp
         | Ha : append_change _ _ _ _ _ = (Ok _, _) |- _ =>
             apply append_change_grows in Ha
         end.
  subst. simpl in *.
  destruct targets; [by eexists | simpl in *; lia].
Qed.

Lemma compose_tx_spec_returns_only_without_targets_witness :
  ComposedTxSpec.txouts
    (ComposedTxSpec.mk
       (map ComposedTxSpec.mkTxIn
          ([("coin"%string, 0)] ++ [("coin"%string, 750)])) []) = []
  /\ exists w1, get_targets (demo_ops [] 0) 0%nat = (Ok [], w1).
Proof.
  apply (compose_tx_spec_returns_only_without_targets (demo_ops [] 0)
           demo_def 0%nat _
           (2%nat, [CallGetTargets; CallSelectCoins 7 0;
                    CallGetRequiredFee 750; CallSelectCoins 7 750])).
  reflexivity.
Defined.

(** * Further properties of [UTXOStore] *)

Lemma has_outpoint_true db txhash' outindex' :
  has_outpoint db txhash' outindex' = true
  <-> (txhash', outindex') ∈ outpoints db.
Proof.
  unfold has_outpoint, outpoints. rewrite existsb_exists, list_elem_of_fmap.
  split.
  - intros (r & Hin & Hb). apply andb_true_iff in Hb as [Ht Ho].
    apply String.eqb_eq in Ht. apply Z.eqb_eq in Ho.
    exists r. split; [by rewrite Ht, Ho | by apply list_elem_of_In].
  - intros (r & [= -> ->] & Hin). exists r.
    split; [by apply list_elem_of_In|].
    by rewrite String.eqb_refl, Z.eqb_refl.
Qed.

Lemma has_outpoint_false db txhash' outindex' :
  has_outpoint db txhash' outindex' = false
  <-> (txhash', outindex') ∉ outpoints db.
Proof.
  rewrite <- has_outpoint_true.
  destruct (has_outpoint db txhash' outindex'); split; congruence.
Qed.



(** [del_utxo] removes the rows of the given outpoint and no other; on a
    store without that outpoint it changes nothing, and after it an
    [add_utxo] of the outpoint succeeds. *)
Theorem del_utxo_removes_outpoint txhash' outindex' db :
  has_outpoint (del_utxo txhash' outindex' db) txhash' outindex' = false
  /\ (forall r,
        r ∈ rows (del_utxo txhash' outindex' db)
        <-> r ∈ rows db
            /\ ~ (UtxoRow.txhash r = txhash' /\ UtxoRow.outindex r = outindex'))
  /\ (has_outpoint db txhash' outindex' = false ->
      del_utxo txhash' outindex' db = db)
  /\ (forall now address value script scantime commitment,
        (add_utxo now address txhash' outindex' value script scantime
           commitment (del_utxo txhash' outindex' db)).1 = Ok tt).
Proof.
  assert (forall r,
            r ∈ rows (del_utxo txhash' outindex' db)
            <-> r ∈ rows db
                /\ ~ (UtxoRow.txhash r = txhash' /\ UtxoRow.outindex r = outindex'))
    as Hmem.
  { intros r. unfold del_utxo. cbn [rows].
    rewrite !list_elem_of_In, filter_In, negb_true_iff, andb_false_iff.
    rewrite String.eqb_neq, Z.eqb_neq.
    destruct (decide (UtxoRow.txhash r = txhash'));
      destruct (decide (UtxoRow.outindex r = outindex')); tauto. }
  assert (has_outpoint (del_utxo txhash' outindex' db) txhash' outindex'
          = false) as Hgone.
  { apply has_outpoint_false. unfold outpoints.
    rewrite list_elem_of_fmap. intros (r & [= Ht Ho] & Hin).
    apply Hmem in Hin as [_ Hn]. by apply Hn. }
  split; [exact Hgone|]. split; [exact Hmem|]. split.
  - intros Hf. clear Hmem Hgone. destruct db as [rs lid].
    unfold del_utxo. cbn [rows last_id].
    f_equal. unfold has_outpoint in Hf. cbn [rows] in Hf.
    induction rs as [|r rs IH]; [reflexivity|].
    cbn [existsb List.filter] in *. apply orb_false_iff in Hf as [Hr Hrs].
    rewrite Hr. cbn [negb]. by rewrite IH.
  - intros. unfold add_utxo, execute_insert. by rewrite Hgone.
Qed.

(** No two rows of a store share an outpoint, and [add_utxo], [del_utxo]
    and [delete_all] keep it so, whether [add_utxo] succeeds or raises. *)
Theorem store_outpoints_stay_unique db :
  NoDup (outpoints db) ->
  (forall now address txhash' outindex' value script scantime commitment,
     NoDup (outpoints
              (add_utxo now address txhash' outindex' value script scantime
                 commitment db).2))
  /\ (forall txhash' outindex',
        NoDup (outpoints (del_utxo txhash' outindex' db)))
  /\ NoDup (outpoints (delete_all db)).
Proof.
  intros Hnd. split; [|split].
  - intros. unfold add_utxo, execute_insert.
    destruct (has_outpoint db txhash' outindex') eqn:E; [exact Hnd|].
    cbn [snd]. unfold outpoints. cbn [rows]. rewrite map_app.
    apply NoDup_app. split; [exact Hnd|]. split.
    + intros x Hx Hx'. cbn [map UtxoRow.txhash UtxoRow.outindex] in Hx'.
      apply list_elem_of_singleton in Hx'. subst x.
      by apply has_outpoint_false in E.
    + cbn [map]. apply NoDup_singleton.
  - intros. unfold outpoints, del_utxo. cbn [rows].
    revert Hnd. unfold outpoints. generalize (rows db) as rs.
    induction rs as [|r rs IH]; [done|].
    cbn [map List.filter]. intros Hnd. apply NoDup_cons in Hnd as [Hr Hrs].
    destruct (negb _); [|by apply IH].
    cbn [map]. apply NoDup_cons. split; [|by apply IH].
    intros Hin. apply Hr. apply list_elem_of_fmap in Hin as (r' & Heq & Hin).
    apply list_elem_of_fmap. exists r'. split; [done|].
    apply list_elem_of_In in Hin. apply filter_In in Hin as [Hin _].
    by apply list_elem_of_In.
  - apply NoDup_nil_2.
Qed.

Lemma store_outpoints_stay_unique_witness :
  (forall now address txhash' outindex' value script scantime commitment,
     NoDup (outpoints
              (add_utxo now address txhash' outindex' value script scantime
                 commitment demo_store).2))
  /\ (forall txhash' outindex',
        NoDup (outpoints (del_utxo txhash' outindex' demo_store)))
  /\ NoDup (outpoints (delete_all demo_store)).
Proof.
  apply (store_outpoints_stay_unique demo_store).
  vm_compute. apply NoDup_singleton.
Defined.

(** * Properties of [UTXOManager.update_address] and [update_all] *)

Section Sync.
Variable get_utxo : string -> exn + list utxo_data.
Variable time : nat -> Z.

(** Fetched outputs that are new to the store and distinct from each other
    are all inserted, in order. *)
Lemma add_fetched_fresh address pre :
  forall rest s,
    NoDup (map data_outpoint pre) ->
    (forall d, d ∈ pre -> data_outpoint d ∉ outpoints (sync_store s)) ->
    exists s',
      add_fetched time address (map utxo_of (pre ++ rest)) s
      = add_fetched time address (map utxo_of rest) s'
      /\ outpoints (sync_store s')
         = outpoints (sync_store s) ++ map data_outpoint pre
      /\ printed s' = printed s
      /\ clock s' = (clock s + length pre)%nat.
Proof.
  induction pre as [|d pre IH]; intros rest s Hnd Hfresh.
  - exists s. cbn [app map length]. rewrite app_nil_r, Nat.add_0_r. done.
  - cbn [map] in Hnd. apply NoDup_cons in Hnd as [Hd Hnd].
    cbn [app map add_fetched utxo_of UTXO.init UTXO.txhash UTXO.outindex
         UTXO.value UTXO.script].
    assert (has_outpoint (sync_store s) d.1.1.1 d.1.1.2 = false) as Hf
      by (apply has_outpoint_false, (Hfresh d); left).
    unfold add_utxo, execute_insert. rewrite Hf.
    match goal with
    | |- context [add_fetched _ _ _ ?s1] =>
        destruct (IH rest s1 Hnd) as (s' & Heq & Hout & Hpr & Hcl)
    end.
    { intros d' Hd'. cbn [sync_store]. unfold outpoints. cbn [rows].
      rewrite map_app. cbn [map UtxoRow.txhash UtxoRow.outindex].
      intros Hin. apply elem_of_app in Hin as [Hin|Hin].
      - apply (Hfresh d'); [by right | exact Hin].
      - apply list_elem_of_singleton in Hin. apply Hd.
        apply list_elem_of_fmap. exists d'. split; [|done].
        symmetry. exact Hin. }
    exists s'. split; [exact Heq|]. cbn [sync_store printed clock] in *.
    split; [|split; [done | cbn [length]; lia]].
    rewrite Hout. unfold outpoints. cbn [rows]. rewrite map_app.
    cbn [map UtxoRow.txhash UtxoRow.outindex]. by rewrite <- app_assoc.
Qed.

(** Whatever the loop inserts is a fetched output, stored under the
    address being updated. *)
Lemma add_fetched_rows address l :
  forall s,
    exists new,
      rows (sync_store (add_fetched time address (map utxo_of l) s))
      = rows (sync_store s) ++ new
      /\ Forall (fun r => exists d, d ∈ l /\ row_of_data address d r) new.
Proof.
  induction l as [|d l IH]; intros s.
  - exists []. by rewrite app_nil_r.
  - cbn [map add_fetched utxo_of UTXO.init UTXO.txhash UTXO.outindex
         UTXO.value UTXO.script].
    unfold add_utxo, execute_insert.
    destruct (has_outpoint (sync_store s) d.1.1.1 d.1.1.2).
    + exists []. cbn [sync_store]. by rewrite app_nil_r.
    + match goal with
      | |- context [add_fetched _ _ _ ?s1] =>
          destruct (IH s1) as (new & Hrows & Hall)
      end.
      cbn [sync_store rows] in Hrows.
      eexists (_ :: new). split.
      * rewrite Hrows. rewrite <- app_assoc. reflexivity.
      * constructor.
        -- exists d. split; [left|]. by repeat split.
        -- eapply Forall_impl; [exact Hall|].
           intros r (d' & Hd' & Hr). exists d'. split; [by right|done].
Qed.
End Sync.

(** A fetch that raises is caught and printed: [update_address] leaves the
    store as it was, and in [update_all] the addresses after the failing
    one are still processed. *)
Theorem failed_fetch_is_isolated get_utxo time address_rec e rest s :
  get_utxo (get_address address_rec) = inl e ->
  update_address get_utxo time address_rec s
  = {| sync_store := sync_store s; clock := clock s;
       printed := printed s ++ [e] |}
  /\ update_all get_utxo time (address_rec :: rest) s
     = update_all get_utxo time rest
         {| sync_store := sync_store s; clock := clock s;
            printed := printed s ++ [e] |}.
Proof.
  intros Hf.
  assert (forall s', update_address get_utxo time address_rec s'
                     = {| sync_store := sync_store s'; clock := clock s';
                          printed := printed s' ++ [e] |}) as Hu
    by (intros s'; unfold update_address, get_for_address; by rewrite Hf).
  split; [apply Hu|]. unfold update_all. cbn [foldl]. by rewrite Hu.
Qed.

Lemma failed_fetch_is_isolated_witness :
  update_address demo_get_utxo demo_time (mkAddressRec "addr2" {[ 0 ]})
    demo_sync
  = {| sync_store := sync_store demo_sync; clock := clock demo_sync;
       printed := printed demo_sync ++ [Exception "no such address"] |}
  /\ update_all demo_get_utxo demo_time
       [mkAddressRec "addr2" {[ 0 ]}; demo_address] demo_sync
     = update_all demo_get_utxo demo_time [demo_address]
         {| sync_store := sync_store demo_sync; clock := clock demo_sync;
            printed := printed demo_sync ++ [Exception "no such address"] |}.
Proof.
  apply (failed_fetch_is_isolated demo_get_utxo demo_time
           (mkAddressRec "addr2" {[ 0 ]}) (Exception "no such address")
           [demo_address] demo_sync).
  reflexivity.
Defined.

(** When the fetched outputs are distinct from each other and new to the
    store, [update_address] inserts them all, in order, prints nothing and
    reads the clock once per output. *)
Theorem update_address_adds_fresh get_utxo time address_rec data s :
  get_utxo (get_address address_rec) = inr data ->
  NoDup (map data_outpoint data) ->
  (forall d, d ∈ data -> data_outpoint d ∉ outpoints (sync_store s)) ->
  outpoints (sync_store (update_address get_utxo time address_rec s))
  = outpoints (sync_store s) ++ map data_outpoint data
  /\ printed (update_address get_utxo time address_rec s) = printed s
  /\ clock (update_address get_utxo time address_rec s)
     = (clock s + length data)%nat.
Proof.
  intros Hf Hnd Hfresh. unfold update_address, get_for_address. rewrite Hf.
  destruct (add_fetched_fresh time (get_address address_rec) data [] s
              Hnd Hfresh) as (s' & Heq & Hout & Hpr & Hcl).
  rewrite app_nil_r in Heq. rewrite Heq. cbn [map add_fetched]. done.
Qed.

Lemma update_address_adds_fresh_witness :
  outpoints (sync_store
               (update_address demo_get_utxo demo_time demo_address
                  demo_sync))
  = outpoints (sync_store demo_sync)
    ++ map data_outpoint [("tx1"%string, 0, 500, "scr"%string);
                          ("tx2"%string, 1, 300, "scr"%string)]
  /\ printed (update_address demo_get_utxo demo_time demo_address demo_sync)
     = printed demo_sync
  /\ clock (update_address demo_get_utxo demo_time demo_address demo_sync)
     = (clock demo_sync + 2)%nat.
Proof.
  apply (update_address_adds_fresh demo_get_utxo demo_time demo_address
           [("tx1"%string, 0, 500, "scr"%string);
            ("tx2"%string, 1, 300, "scr"%string)] demo_sync).
  - reflexivity.
  - vm_compute. apply NoDup_cons_2; [|apply NoDup_singleton].
    intros H. apply list_elem_of_singleton in H. discriminate H.
  - intros d _ H. vm_compute in H. by apply elem_of_nil in H.
Defined.

(** The first fetched output whose outpoint is already stored, or was
    fetched earlier in the same list, ends the update: the outputs before it
    are inserted, [IntegrityError] is printed, and the outputs after it are
    not inserted, new or not. *)
Theorem update_address_stops_at_duplicate get_utxo time address_rec pre d
    post s :
  get_utxo (get_address address_rec) = inr (pre ++ d :: post) ->
  NoDup (map data_outpoint pre) ->
  (forall d', d' ∈ pre -> data_outpoint d' ∉ outpoints (sync_store s)) ->
  data_outpoint d ∈ outpoints (sync_store s) ++ map data_outpoint pre ->
  outpoints (sync_store (update_address get_utxo time address_rec s))
  = outpoints (sync_store s) ++ map data_outpoint pre
  /\ printed (update_address get_utxo time address_rec s)
     = printed s ++ [IntegrityError].
Proof.
  intros Hf Hnd Hfresh Hdup. unfold update_address, get_for_address.
  rewrite Hf.
  destruct (add_fetched_fresh time (get_address address_rec) pre
              (d :: post) s Hnd Hfresh) as (s' & Heq & Hout & Hpr & Hcl).
  rewrite Heq. rewrite <- Hout in Hdup. apply has_outpoint_true in Hdup.
  cbn [map add_fetched utxo_of UTXO.init UTXO.txhash UTXO.outindex
       UTXO.value UTXO.script].
  unfold add_utxo, execute_insert. unfold data_outpoint in Hdup.
  rewrite Hdup. cbn [sync_store printed]. by rewrite Hout, Hpr.
Qed.

Lemma update_address_stops_at_duplicate_witness :
  outpoints
    (sync_store
       (update_address demo_get_utxo demo_time (mkAddressRec "addr3" {[ 0 ]})
          {| sync_store := demo_store; clock := 0; printed := [] |}))
  = outpoints demo_store
    ++ map data_outpoint [("tx3"%string, 0, 50, "scr"%string)]
  /\ printed
       (update_address demo_get_utxo demo_time (mkAddressRec "addr3" {[ 0 ]})
          {| sync_store := demo_store; clock := 0; printed := [] |})
     = [] ++ [IntegrityError].
Proof.
  apply (update_address_stops_at_duplicate demo_get_utxo demo_time
           (mkAddressRec "addr3" {[ 0 ]})
           [("tx3"%string, 0, 50, "scr"%string)]
           ("tx1"%string, 0, 500, "scr"%string)
           [("tx4"%string, 2, 70, "scr"%string)]
           {| sync_store := demo_store; clock := 0; printed := [] |}).
  - reflexivity.
  - vm_compute. apply NoDup_singleton.
  - intros d' Hd' H. apply list_elem_of_singleton in Hd'. subst d'.
    vm_compute in H. apply list_elem_of_singleton in H. discriminate H.
  - vm_compute. apply list_elem_of_here.
Defined.

(** After [update_all] the store holds nothing from before: every row is
    an output fetched for one of the given addresses during this update,
    stored under that address. *)
Theorem update_all_leaves_no_residue get_utxo time all_addresses s r :
  r ∈ rows (sync_store (update_all get_utxo time all_addresses s)) ->
  exists address_rec data d,
    address_rec ∈ all_addresses
    /\ get_utxo (get_address address_rec) = inr data
    /\ d ∈ data
    /\ row_of_data (get_address address_rec) d r.
Proof.
  unfold update_all.
  set (P := fun r => exists address_rec data d,
                address_rec ∈ all_addresses
                /\ get_utxo (get_address address_rec) = inr data
                /\ d ∈ data
                /\ row_of_data (get_address address_rec) d r).
  assert (forall l s0,
            (forall a, a ∈ l -> a ∈ all_addresses) ->
            (forall r0, r0 ∈ rows (sync_store s0) -> P r0) ->
            forall r0,
              r0 ∈ rows (sync_store
                           (foldl (fun s' address =>
                                     update_address get_utxo time address s')
                              s0 l)) ->
              P r0) as Hinv.
  { induction l as [|a l IH]; intros s0 Hl Hs0 r0; cbn [foldl]; [apply Hs0|].
    apply IH; [intros a' Ha'; apply Hl; by right|].
    intros r1. unfold update_address, get_for_address.
    destruct (get_utxo (get_address a)) as [e|data] eqn:Hf;
      [cbn [sync_store]; apply Hs0|].
    destruct (add_fetched_rows time (get_address a) data s0)
      as (new & -> & Hall).
    intros Hin. apply elem_of_app in Hin as [Hin|Hin]; [by apply Hs0|].
    rewrite Forall_forall in Hall.
    destruct (Hall r1 Hin) as (d & Hd & Hr).
    exists a, data, d. split; [apply Hl; left|]. done. }
  apply Hinv; [done|]. cbn [sync_store delete_all rows].
  intros r0 Hr0. by apply elem_of_nil in Hr0.
Qed.

Lemma update_all_leaves_no_residue_witness :
  exists address_rec data d,
    address_rec ∈ [demo_address]
    /\ demo_get_utxo (get_address address_rec) = inr data
    /\ d ∈ data
    /\ row_of_data (get_address address_rec) d
         (UtxoRow.mk 2 "addr1" "tx1" 0 500 "scr" 1000 0).
Proof.
  apply (update_all_leaves_no_residue demo_get_utxo demo_time [demo_address]
           {| sync_store := demo_store; clock := 0; printed := [] |}).
  vm_compute. apply list_elem_of_here.
Defined.

(** * Further properties of [UTXOQuery] *)

Lemma filter_map_commute {A B} (f : B -> bool) (g : A -> B) (l : list A) :
  List.filter f (map g l) = map g (List.filter (fun x => f (g x)) l).
Proof.
  induction l as [|x l IH]; [reflexivity|]. cbn [map List.filter].
  destruct (f (g x)); cbn [map]; by rewrite IH.
Qed.

(** For an address whose declared color set is exactly [{0}], the query
    returns every UTXO stored at the address, with the address record
    attached and no colorvalues resolved: neither the query's own color set
    nor the colour data is consulted. *)
Theorem uncolored_address_returns_all self address_rec :
  get_color_set address_rec = {[ 0 ]} ->
  get_utxos_for_address self address_rec
  = map (fun r => UTXO.mk (UtxoRow.txhash r) (UtxoRow.outindex r) (UtxoRow.value r)
                    (UtxoRow.script r) (Some address_rec) None (Some r))
      (store_get_utxos_for_address (utxo_manager self)
         (get_address address_rec)).
Proof.
  intros Hset. unfold get_utxos_for_address, manager_get_utxos_for_address.
  rewrite Hset, bool_decide_eq_true_2 by reflexivity. cbn [negb].
  by rewrite map_map.
Qed.

Lemma uncolored_address_returns_all_witness :
  get_utxos_for_address demo_query (mkAddressRec "addr1" {[ 0 ]})
  = map (fun r => UTXO.mk (UtxoRow.txhash r) (UtxoRow.outindex r) (UtxoRow.value r)
                    (UtxoRow.script r) (Some (mkAddressRec "addr1" {[ 0 ]}))
                    None (Some r))
      (store_get_utxos_for_address (utxo_manager demo_query) "addr1").
Proof.
  apply (uncolored_address_returns_all demo_query
           (mkAddressRec "addr1" {[ 0 ]})).
  reflexivity.
Defined.

(** For any other address, the query resolves the colorvalues of every UTXO
    stored at the address and keeps a UTXO exactly when its first
    colorvalue has a requested color id, or when it has no colorvalue and 0
    is requested; colorvalues after the first play no part. *)
Theorem colored_address_keeps_by_first_colorvalue self address_rec :
  get_color_set address_rec <> {[ 0 ]} ->
  get_utxos_for_address self address_rec
  = map (fun r =>
           UTXO.mk (UtxoRow.txhash r) (UtxoRow.outindex r) (UtxoRow.value r)
             (UtxoRow.script r) (Some address_rec)
             (Some (get_colorvalues self (get_color_set address_rec)
                      (UtxoRow.txhash r) (UtxoRow.outindex r)))
             (Some r))
      (List.filter
         (fun r =>
            match get_colorvalues self (get_color_set address_rec)
                    (UtxoRow.txhash r) (UtxoRow.outindex r) with
            | [] => has_color_id (color_set self) 0
            | cv :: _ => has_color_id (color_set self) cv.1
            end)
         (store_get_utxos_for_address (utxo_manager self)
            (get_address address_rec))).
Proof.
  intros Hset. unfold get_utxos_for_address, manager_get_utxos_for_address.
  rewrite bool_decide_eq_false_2 by exact Hset. cbn [negb].
  rewrite map_map, filter_map_commute. f_equal.
  apply filter_ext. intros r. unfold relevant.
  cbn [UTXO.colorvalues UTXO.txhash UTXO.outindex UTXO.init].
  destruct (get_colorvalues _ _ _ _) as [|cv cvl]; [reflexivity|].
  by destruct (has_color_id (color_set self) cv.1).
Qed.

Lemma colored_address_keeps_by_first_colorvalue_witness :
  get_utxos_for_address demo_query demo_address
  = map (fun r =>
           UTXO.mk (UtxoRow.txhash r) (UtxoRow.outindex r) (UtxoRow.value r)
             (UtxoRow.script r) (Some demo_address)
             (Some (get_colorvalues demo_query (get_color_set demo_address)
                      (UtxoRow.txhash r) (UtxoRow.outindex r)))
             (Some r))
      (List.filter
         (fun r =>
            match get_colorvalues demo_query (get_color_set demo_address)
                    (UtxoRow.txhash r) (UtxoRow.outindex r) with
            | [] => has_color_id (color_set demo_query) 0
            | cv :: _ => has_color_id (color_set demo_query) cv.1
            end)
         (store_get_utxos_for_address (utxo_manager demo_query)
            (get_address demo_address))).
Proof.
  apply (colored_address_keeps_by_first_colorvalue demo_query demo_address).
  intros H. assert (1 ∈ ({[ 0 ]} : gset Z)) as H1
    by (rewrite <- H; unfold demo_address; simpl; set_solver).
  set_solver.
Defined.

Lemma get_utxos_for_address_from_store self address_rec u :
  u ∈ get_utxos_for_address self address_rec ->
  exists r,
    r ∈ rows (utxo_manager self)
    /\ UtxoRow.address r = get_address address_rec
    /\ UTXO.address_rec u = Some address_rec
    /\ UTXO.utxo_rec u = Some r
    /\ UTXO.get_outpoint u = (UtxoRow.txhash r, UtxoRow.outindex r)
    /\ UTXO.value u = UtxoRow.value r.
Proof.
  unfold get_utxos_for_address, manager_get_utxos_for_address.
  rewrite map_map. intros Hin.
  assert (u ∈ map
            (fun x : UtxoRow.t =>
               UTXO.mk (UtxoRow.txhash x) (UtxoRow.outindex x) (UtxoRow.value x)
                 (UtxoRow.script x) (Some address_rec)
                 (if negb (bool_decide (get_color_set address_rec = {[ 0 ]}))
                  then Some (get_colorvalues self (get_color_set address_rec)
                               (UtxoRow.txhash x) (UtxoRow.outindex x))
                  else None)
                 (Some x))
            (store_get_utxos_for_address (utxo_manager self)
               (get_address address_rec))) as Hin'.
  { destruct (bool_decide _); [exact Hin|].
    apply list_elem_of_In in Hin. apply filter_In in Hin as [Hin _].
    by apply list_elem_of_In. }
  apply list_elem_of_fmap in Hin' as (r & -> & Hr).
  unfold store_get_utxos_for_address in Hr.
  apply list_elem_of_In in Hr. apply filter_In in Hr as [Hr Ha].
  apply String.eqb_eq in Ha. exists r.
  split; [by apply list_elem_of_In|]. done.
Qed.

(** [get_result] only returns UTXOs of the addresses it is given: each one
    carries one of those address records and the store row, filed under
    that address, from which it was built. *)
Theorem get_result_only_given_addresses self addresses u :
  u ∈ get_result self addresses ->
  exists address_rec r,
    address_rec ∈ addresses
    /\ r ∈ rows (utxo_manager self)
    /\ UtxoRow.address r = get_address address_rec
    /\ UTXO.address_rec u = Some address_rec
    /\ UTXO.utxo_rec u = Some r
    /\ UTXO.get_outpoint u = (UtxoRow.txhash r, UtxoRow.outindex r)
    /\ UTXO.value u = UtxoRow.value r.
Proof.
  unfold get_result.
  assert (forall l acc,
            u ∈ foldl (fun utxos address =>
                         utxos ++ get_utxos_for_address self address) acc l ->
            u ∈ acc
            \/ exists a, a ∈ l /\ u ∈ get_utxos_for_address self a) as Hfold.
  { induction l as [|a l IH]; intros acc; cbn [foldl]; [by left|].
    intros Hin. apply IH in Hin as [Hin|(a' & Ha' & Hin)].
    - apply elem_of_app in Hin as [Hin|Hin]; [by left|].
      right. exists a. split; [left|done].
    - right. exists a'. split; [by right|done]. }
  intros Hin. apply Hfold in Hin as [Hin|(a & Ha & Hin)];
    [by apply elem_of_nil in Hin|].
  apply get_utxos_for_address_from_store in Hin as (r & Hr).
  exists a, r. done.
Qed.

Lemma get_result_only_given_addresses_witness :
  exists address_rec r,
    address_rec ∈ [mkAddressRec "addr1" {[ 0 ]}]
    /\ r ∈ rows (utxo_manager demo_query)
    /\ UtxoRow.address r = get_address address_rec
    /\ UTXO.address_rec
         (UTXO.mk "tx1" 0 500 "scr" (Some (mkAddressRec "addr1" {[ 0 ]}))
            None (Some (UtxoRow.mk 1 "addr1" "tx1" 0 500 "scr" 99 0)))
       = Some address_rec
    /\ UTXO.utxo_rec
         (UTXO.mk "tx1" 0 500 "scr" (Some (mkAddressRec "addr1" {[ 0 ]}))
            None (Some (UtxoRow.mk 1 "addr1" "tx1" 0 500 "scr" 99 0)))
       = Some r
    /\ UTXO.get_outpoint
         (UTXO.mk "tx1" 0 500 "scr" (Some (mkAddressRec "addr1" {[ 0 ]}))
            None (Some (UtxoRow.mk 1 "addr1" "tx1" 0 500 "scr" 99 0)))
       = (UtxoRow.txhash r, UtxoRow.outindex r)
    /\ UTXO.value
         (UTXO.mk "tx1" 0 500 "scr" (Some (mkAddressRec "addr1" {[ 0 ]}))
            None (Some (UtxoRow.mk 1 "addr1" "tx1" 0 500 "scr" 99 0)))
       = UtxoRow.value r.
Proof.
  apply (get_result_only_given_addresses demo_query
           [mkAddressRec "addr1" {[ 0 ]}]).
  vm_compute. apply list_elem_of_here.
Defined.

(** * Properties of [UTXOFetcher.__init__] and [UTXOManager.__init__] *)

(** The interface a fetcher picks from a dict of parameters: without an
    ['interface'] entry it is blockchain.info; for ['electrum'] without
    server and port entries it is the electrum interface on the default
    server and port; a string naming anything but the three known services
    raises. *)
Theorem fetcher_init_selection items :
  (items_lookup items "interface" = None ->
   fetcher_init (ODict items) = Ok BlockchainInfoInterface)
  /\ (items_lookup items "interface" = Some (OStr "electrum") ->
      items_lookup items "electrum_server" = None ->
      items_lookup items "electrum_port" = None ->
      fetcher_init (ODict items)
      = Ok (ElectrumInterface (OStr "btc.it-zone.org") (OInt 50001)))
  /\ (forall v,
        items_lookup items "interface" = Some v ->
        py_eq_str v "blockchain.info" = false ->
        py_eq_str v "testnet" = false ->
        py_eq_str v "electrum" = false ->
        fetcher_init (ODict items)
        = Raise (Exception "unknown service for UTXOFetcher")).
Proof.
  unfold fetcher_init, py_get. cbn [mbind result_bind].
  split; [|split].
  - intros ->. reflexivity.
  - intros -> -> ->. reflexivity.
  - intros v -> H1 H2 H3. by rewrite H1, H2, H3.
Qed.

Lemma fetcher_init_selection_witness :
  fetcher_init (ODict []) = Ok BlockchainInfoInterface
  /\ fetcher_init (ODict [("interface"%string, OStr "electrum")])
     = Ok (ElectrumInterface (OStr "btc.it-zone.org") (OInt 50001))
  /\ fetcher_init (ODict [("interface"%string, OInt 3)])
     = Raise (Exception "unknown service for UTXOFetcher").
Proof.
  split; [|split].
  - apply (fetcher_init_selection []). reflexivity.
  - apply (fetcher_init_selection [("interface"%string, OStr "electrum")]);
      reflexivity.
  - apply (fetcher_init_selection [("interface"%string, OInt 3)]) with
      (v := OInt 3); reflexivity.
Defined.

(** A true ['testnet'] entry decides the interface of a manager: it is the
    testnet explorer whatever the ['utxo_fetcher'] parameters say, which
    are not read, even when they name an unknown service. *)
Theorem testnet_overrides_fetcher_config config params testnet dbpath :
  py_get config "utxodb" (ODict []) = Ok params ->
  py_get config "testnet" (OBool false) = Ok testnet ->
  py_truthy testnet = true ->
  py_get params "dbpath" (OStr "utxo.db") = Ok dbpath ->
  manager_init config = Ok (dbpath, AbeInterface).
Proof.
  intros Hp Ht Htrue Hd. unfold manager_init.
  rewrite Hp, Ht. cbn [mbind result_bind]. rewrite Htrue.
  cbn [mbind result_bind]. rewrite Hd. reflexivity.
Qed.

Lemma testnet_overrides_fetcher_config_witness :
  manager_init
    (ODict [("testnet"%string, OInt 1);
            ("utxodb"%string,
             ODict [("utxo_fetcher"%string,
                     ODict [("interface"%string, OStr "bogus")])])])
  = Ok (OStr "utxo.db", AbeInterface).
Proof.
  apply (testnet_overrides_fetcher_config _
           (ODict [("utxo_fetcher"%string,
                    ODict [("interface"%string, OStr "bogus")])])
           (OInt 1) (OStr "utxo.db"));
    reflexivity.
Defined.
